(** * Log monitor of the Android emulator skill: a shallow embedding

    This development embeds [skill/scripts/log_monitor.py] (class
    [LogMonitor]) and proves properties of its line parser, severity
    classifier, deduplicator, per-line aggregation step, duration parser and
    logcat threshold computation.

    Modelling conventions.
    - A Python [str] is a [string]: a sequence of code points below 256.
      The character classes below are those of CPython for that range.
    - Python integers are unbounded: counters are [nat], durations are [Z].
    - A Python exception is the [Raise] outcome of the [result] type.
    - The mutable [LogMonitor] object is an explicit record that every method
      takes and returns.
    - The [set] of seen signatures is a [gset string]. *)

From Stdlib Require Import Ascii String ZArith Lia.
From stdpp Require Import base list strings gmap.

Local Open Scope Z_scope.
Local Open Scope nat_scope.
Local Open Scope list_scope.
Local Open Scope stdpp_scope.

(** ** Characters and strings, as Python sees them *)

Module Py.

Definition code (c : ascii) : nat := nat_of_ascii c.

(** [\d] on [str] patterns, and the digits [int()] accepts. *)
Definition isdigit (c : ascii) : bool :=
  (48 <=? code c) && (code c <=? 57).

(** [str.isspace], which is also [\s] on [str] patterns. *)
Definition isspace (c : ascii) : bool :=
  ((9 <=? code c) && (code c <=? 13))
  || ((28 <=? code c) && (code c <=? 32))
  || (code c =? 133) || (code c =? 160).

(** [str.lower] on one character. *)
Definition lower_char (c : ascii) : ascii :=
  if ((65 <=? code c) && (code c <=? 90))
     || ((192 <=? code c) && (code c <=? 222) && negb (code c =? 215))
  then ascii_of_nat (code c + 32)
  else c.

Fixpoint lower (s : string) : string :=
  match s with
  | EmptyString => EmptyString
  | String c s' => String (lower_char c) (lower s')
  end.

Fixpoint lstrip (s : string) : string :=
  match s with
  | EmptyString => EmptyString
  | String c s' => if isspace c then lstrip s' else s
  end.

Definition rstrip (s : string) : string :=
  String.rev (lstrip (String.rev s)).

Definition strip (s : string) : string := rstrip (lstrip s).

(** Truth value of a string: non-empty. *)
Definition truthy (s : string) : bool :=
  match s with EmptyString => false | String _ _ => true end.

Definition digit_value (c : ascii) : Z := Z.of_nat (code c - 48).

Fixpoint int_from (acc : Z) (s : string) : Z :=
  match s with
  | EmptyString => acc
  | String c s' => int_from (acc * 10 + digit_value c)%Z s'
  end.

(** [int(s)] for a string of decimal digits (the cap that recent
    interpreters put on the number of digits is not modelled). *)
Definition int (s : string) : Z := int_from 0%Z s.

(** The line feed character as a string. *)
Definition newline : string := String "010"%char "".

(** [sep.join(l)]. *)
Fixpoint join (sep : string) (l : list string) : string :=
  match l with
  | [] => ""
  | [x] => x
  | x :: l' => x +:+ sep +:+ join sep l'
  end.

(** [l[-n:]] for [n > 0]. *)
Definition last_n {A} (n : nat) (l : list A) : list A :=
  drop (length l - n) l.

(** [l[:n]]. *)
Definition first_n {A} (n : nat) (l : list A) : list A := take n l.

(** [x in l]. *)
Definition contains (x : string) (l : list string) : bool :=
  bool_decide (x ∈ l).

Inductive exn :=
| ValueError (msg : string)
| IndexError (msg : string).

Inductive result (A : Type) :=
| Ok (a : A)
| Raise (e : exn).
Arguments Ok {A} a.
Arguments Raise {A} e.

Definition bind {A B} (m : result A) (f : A → result B) : result B :=
  match m with
  | Ok a => f a
  | Raise e => Raise e
  end.

(** [l.index(x)]. *)
Fixpoint index (x : string) (l : list string) : result nat :=
  match l with
  | [] => Raise (ValueError "x not in list")
  | y :: l' => if bool_decide (y = x) then Ok 0
               else bind (index x l') (λ i, Ok (S i))
  end.

(** [min(l)] over integers. *)
Definition min (l : list nat) : result nat :=
  match l with
  | [] => Raise (ValueError "min() arg is an empty sequence")
  | x :: l' => Ok (foldl Nat.min x l')
  end.

(** [l[i]] for [i >= 0]. *)
Definition getitem (l : list string) (i : nat) : result string :=
  match l !! i with
  | Some x => Ok x
  | None => Raise (IndexError "list index out of range")
  end.

(** [[f(x) for x in l]] where [f] may raise. *)
Fixpoint mapM {A B} (f : A → result B) (l : list A) : result (list B) :=
  match l with
  | [] => Ok []
  | x :: l' => bind (f x) (λ y, bind (mapM f l') (λ ys, Ok (y :: ys)))
  end.

End Py.

Global Instance result_bind : MBind Py.result :=
  λ A B f m, Py.bind m f.
Global Instance result_ret : MRet Py.result := @Py.Ok.

(** ** The regular expressions of module [re] that the program uses

    Every quantifier in the program's patterns applies to a single
    character class, so the syntax has a greedy star over classes only.
    Matching is the backtracking search of [re]: the leftmost choice that
    lets the rest of the pattern succeed, longest repetition first. *)

Module Re.

Inductive regex :=
| Eps
| Chr (cls : ascii → bool)
| Cat (r1 r2 : regex)
| Star (cls : ascii → bool)
| Group (r : regex).

Definition Plus (cls : ascii → bool) : regex := Cat (Chr cls) (Star cls).

Fixpoint Count (n : nat) (cls : ascii → bool) : regex :=
  match n with
  | 0 => Eps
  | S n' => Cat (Chr cls) (Count n' cls)
  end.

Definition lit (c : ascii) : ascii → bool := λ x, bool_decide (x = c).
Definition digit : ascii → bool := Py.isdigit.
Definition space : ascii → bool := Py.isspace.
Definition dot : ascii → bool := λ x, negb (bool_decide (x = "010"%char)).
Definition one_of (s : string) : ascii → bool :=
  λ x, bool_decide (x ∈ list_ascii_of_string s).
Definition none_of (s : string) : ascii → bool := λ x, negb (one_of s x).

Fixpoint cat_all (rs : list regex) : regex :=
  match rs with
  | [] => Eps
  | r :: rs' => Cat r (cat_all rs')
  end.

(** The text of [s] in front of its suffix [rest]. *)
Definition consumed (s rest : string) : string :=
  String.substring 0 (String.length s - String.length rest) s.

Section Matcher.
Context {R : Type}.

Fixpoint star_k (cls : ascii → bool) (s : string)
    (k : string → option R) : option R :=
  match s with
  | String c s' =>
      if cls c then
        match star_k cls s' k with
        | Some r => Some r
        | None => k s
        end
      else k s
  | EmptyString => k s
  end.

Fixpoint match_k (r : regex) (s : string) (caps : list string)
    (k : string → list string → option R) : option R :=
  match r with
  | Eps => k s caps
  | Chr cls =>
      match s with
      | String c s' => if cls c then k s' caps else None
      | EmptyString => None
      end
  | Cat r1 r2 => match_k r1 s caps (λ s' caps', match_k r2 s' caps' k)
  | Star cls => star_k cls s (λ s', k s' caps)
  | Group r' =>
      match_k r' s caps (λ s' caps', k s' (consumed s s' :: caps'))
  end.
End Matcher.

(** A match object: [m.groups()] and [m.end()]. *)
Record match_obj := { groups : list string; end_ : nat }.

(** [re.match(r, s)]. *)
Definition re_match (r : regex) (s : string) : option match_obj :=
  match_k r s []
    (λ rest caps,
       Some {| groups := rev caps;
               end_ := String.length s - String.length rest |}).

(** [re.sub(r, repl, s)]: [skip] characters of an earlier match are still
    to be passed over. A match that ends where it starts replaces nothing
    of the text; the patterns substituted in this program cannot produce
    one. *)
Fixpoint sub_go (r : regex) (repl : string) (skip : nat) (s : string)
    : string :=
  match s with
  | EmptyString => EmptyString
  | String c s' =>
      match skip with
      | S n => sub_go r repl n s'
      | 0 =>
          match re_match r s with
          | Some m =>
              match end_ m with
              | S n => repl +:+ sub_go r repl n s'
              | 0 => repl +:+ String c (sub_go r repl 0 s')
              end
          | None => String c (sub_go r repl 0 s')
          end
      end
  end.

Definition sub (r : regex) (repl : string) (s : string) : string :=
  sub_go r repl 0 s.

End Re.


(** ** class LogMonitor *)

Module LogMonitor.

Import Py.

(** [PRIORITY_MAP]: Android logcat priority levels. *)
Definition PRIORITY_MAP : gmap string string :=
  list_to_map
    [("V", "verbose"); ("D", "debug"); ("I", "info");
     ("W", "warning"); ("E", "error"); ("F", "fatal")].

(** The dict that [parse_logcat_line] returns. *)
Record parsed := {
  timestamp : string;
  pid : string;
  tid : string;
  priority : string;
  severity : string;
  tag : string;
  message : string;
  raw : string;
}.

(** The attributes of a monitor (process control left out). *)
Record t := {
  app_package : option string;
  device_serial : option string;
  severity_filter : list string;
  log_lines : list string;
  errors : list string;
  warnings : list string;
  info_messages : list string;
  error_count : nat;
  warning_count : nat;
  info_count : nat;
  debug_count : nat;
  verbose_count : nat;
  total_lines : nat;
  seen_messages : gset string;
}.

Definition default_severity_filter : list string :=
  ["error"; "warning"; "info"; "debug"].

(** [__init__]: [severity_filter or [...]] replaces [None] and the empty
    list by the default. *)
Definition init (app_package device_serial : option string)
    (severity_filter : option (list string)) : t :=
  {| app_package := app_package;
     device_serial := device_serial;
     severity_filter :=
       match severity_filter with
       | Some (x :: l) => x :: l
       | _ => default_severity_filter
       end;
     log_lines := [];
     errors := [];
     warnings := [];
     info_messages := [];
     error_count := 0;
     warning_count := 0;
     info_count := 0;
     debug_count := 0;
     verbose_count := 0;
     total_lines := 0;
     seen_messages := ∅ |}.

(** Attribute updates. *)
Definition set_log_lines (v : list string) (self : t) : t :=
  {| app_package := app_package self; device_serial := device_serial self;
     severity_filter := severity_filter self; log_lines := v;
     errors := errors self; warnings := warnings self;
     info_messages := info_messages self; error_count := error_count self;
     warning_count := warning_count self; info_count := info_count self;
     debug_count := debug_count self; verbose_count := verbose_count self;
     total_lines := total_lines self; seen_messages := seen_messages self |}.
Definition set_errors (v : list string) (self : t) : t :=
  {| app_package := app_package self; device_serial := device_serial self;
     severity_filter := severity_filter self; log_lines := log_lines self;
     errors := v; warnings := warnings self;
     info_messages := info_messages self; error_count := error_count self;
     warning_count := warning_count self; info_count := info_count self;
     debug_count := debug_count self; verbose_count := verbose_count self;
     total_lines := total_lines self; seen_messages := seen_messages self |}.
Definition set_warnings (v : list string) (self : t) : t :=
  {| app_package := app_package self; device_serial := device_serial self;
     severity_filter := severity_filter self; log_lines := log_lines self;
     errors := errors self; warnings := v;
     info_messages := info_messages self; error_count := error_count self;
     warning_count := warning_count self; info_count := info_count self;
     debug_count := debug_count self; verbose_count := verbose_count self;
     total_lines := total_lines self; seen_messages := seen_messages self |}.
Definition set_info_messages (v : list string) (self : t) : t :=
  {| app_package := app_package self; device_serial := device_serial self;
     severity_filter := severity_filter self; log_lines := log_lines self;
     errors := errors self; warnings := warnings self;
     info_messages := v; error_count := error_count self;
     warning_count := warning_count self; info_count := info_count self;
     debug_count := debug_count self; verbose_count := verbose_count self;
     total_lines := total_lines self; seen_messages := seen_messages self |}.
Definition set_error_count (v : nat) (self : t) : t :=
  {| app_package := app_package self; device_serial := device_serial self;
     severity_filter := severity_filter self; log_lines := log_lines self;
     errors := errors self; warnings := warnings self;
     info_messages := info_messages self; error_count := v;
     warning_count := warning_count self; info_count := info_count self;
     debug_count := debug_count self; verbose_count := verbose_count self;
     total_lines := total_lines self; seen_messages := seen_messages self |}.
Definition set_warning_count (v : nat) (self : t) : t :=
  {| app_package := app_package self; device_serial := device_serial self;
     severity_filter := severity_filter self; log_lines := log_lines self;
     errors := errors self; warnings := warnings self;
     info_messages := info_messages self; error_count := error_count self;
     warning_count := v; info_count := info_count self;
     debug_count := debug_count self; verbose_count := verbose_count self;
     total_lines := total_lines self; seen_messages := seen_messages self |}.
Definition set_info_count (v : nat) (self : t) : t :=
  {| app_package := app_package self; device_serial := device_serial self;
     severity_filter := severity_filter self; log_lines := log_lines self;
     errors := errors self; warnings := warnings self;
     info_messages := info_messages self; error_count := error_count self;
     warning_count := warning_count self; info_count := v;
     debug_count := debug_count self; verbose_count := verbose_count self;
     total_lines := total_lines self; seen_messages := seen_messages self |}.
Definition set_debug_count (v : nat) (self : t) : t :=
  {| app_package := app_package self; device_serial := device_serial self;
     severity_filter := severity_filter self; log_lines := log_lines self;
     errors := errors self; warnings := warnings self;
     info_messages := info_messages self; error_count := error_count self;
     warning_count := warning_count self; info_count := info_count self;
     debug_count := v; verbose_count := verbose_count self;
     total_lines := total_lines self; seen_messages := seen_messages self |}.
Definition set_verbose_count (v : nat) (self : t) : t :=
  {| app_package := app_package self; device_serial := device_serial self;
     severity_filter := severity_filter self; log_lines := log_lines self;
     errors := errors self; warnings := warnings self;
     info_messages := info_messages self; error_count := error_count self;
     warning_count := warning_count self; info_count := info_count self;
     debug_count := debug_count self; verbose_count := v;
     total_lines := total_lines self; seen_messages := seen_messages self |}.
Definition set_total_lines (v : nat) (self : t) : t :=
  {| app_package := app_package self; device_serial := device_serial self;
     severity_filter := severity_filter self; log_lines := log_lines self;
     errors := errors self; warnings := warnings self;
     info_messages := info_messages self; error_count := error_count self;
     warning_count := warning_count self; info_count := info_count self;
     debug_count := debug_count self; verbose_count := verbose_count self;
     total_lines := v; seen_messages := seen_messages self |}.
Definition set_seen_messages (v : gset string) (self : t) : t :=
  {| app_package := app_package self; device_serial := device_serial self;
     severity_filter := severity_filter self; log_lines := log_lines self;
     errors := errors self; warnings := warnings self;
     info_messages := info_messages self; error_count := error_count self;
     warning_count := warning_count self; info_count := info_count self;
     debug_count := debug_count self; verbose_count := verbose_count self;
     total_lines := total_lines self; seen_messages := v |}.

(** *** parse_time_duration *)

(** The pattern [(\d+)([smh])]. *)
Definition duration_pattern : Re.regex :=
  Re.Cat (Re.Group (Re.Plus Re.digit)) (Re.Group (Re.Chr (Re.one_of "smh"))).

Definition invalid_duration (duration_str : string) : exn :=
  ValueError ("Invalid duration format: " +:+ duration_str
              +:+ ". Use format like '30s', '5m', '1h'").

Definition unpack_error : exn :=
  ValueError "not enough values to unpack".

Definition parse_time_duration (duration_str : string) : result Z :=
  match Re.re_match duration_pattern (lower duration_str) with
  | None => Raise (invalid_duration duration_str)
  | Some m =>
      match Re.groups m with
      | [value; unit] =>
          let value := int value in
          if bool_decide (unit = "s") then Ok value
          else if bool_decide (unit = "m") then Ok (value * 60)%Z
          else if bool_decide (unit = "h") then Ok (value * 3600)%Z
          else Ok 0%Z
      | _ => Raise unpack_error
      end
  end.

(** *** parse_logcat_line *)

(** The pattern of the logcat time format, piece by piece:
    [( \d{2}-\d{2} \s+ \d{2}:\d{2}:\d{2} \. \d{3} )]
    [\s+ (\d+) \s+ (\d+) \s+ ([VDIWEF]) \s+ ([^:]+) : \s* ( .* )]. *)
Definition logcat_pattern : Re.regex :=
  Re.cat_all
    [Re.Group
       (Re.cat_all
          [Re.Count 2 Re.digit; Re.Chr (Re.lit "-"); Re.Count 2 Re.digit;
           Re.Plus Re.space;
           Re.Count 2 Re.digit; Re.Chr (Re.lit ":");
           Re.Count 2 Re.digit; Re.Chr (Re.lit ":");
           Re.Count 2 Re.digit; Re.Chr (Re.lit "."); Re.Count 3 Re.digit]);
     Re.Plus Re.space;
     Re.Group (Re.Plus Re.digit);
     Re.Plus Re.space;
     Re.Group (Re.Plus Re.digit);
     Re.Plus Re.space;
     Re.Group (Re.Chr (Re.one_of "VDIWEF"));
     Re.Plus Re.space;
     Re.Group (Re.Plus (Re.none_of ":"));
     Re.Chr (Re.lit ":");
     Re.Star Re.space;
     Re.Group (Re.Star Re.dot)].

Definition parse_logcat_line (line : string) : result (option parsed) :=
  match Re.re_match logcat_pattern line with
  | None => Ok None
  | Some m =>
      match Re.groups m with
      | [timestamp; pid; tid; priority; tag; message] =>
          Ok (Some
                {| timestamp := timestamp;
                   pid := pid;
                   tid := tid;
                   priority := priority;
                   severity := default "unknown" (PRIORITY_MAP !! priority);
                   tag := strip tag;
                   message := strip message;
                   raw := line |})
      | _ => Raise unpack_error
      end
  end.

(** *** classify_log_line *)

Definition classify_log_line (parsed : parsed) : string :=
  let priority := priority parsed in
  if contains priority ["E"; "F"] then "error"
  else if bool_decide (priority = "W") then "warning"
  else if bool_decide (priority = "I") then "info"
  else if bool_decide (priority = "D") then "debug"
  else "verbose".

(** *** deduplicate_message *)

Definition signature (message tag : string) : string :=
  let signature := tag +:+ ":" +:+ message in
  let signature := Re.sub (Re.Plus Re.digit) "" signature in
  strip (Re.sub (Re.Plus Re.space) " " signature).

Definition deduplicate_message (self : t) (message tag : string)
    : bool * t :=
  let signature := signature message tag in
  if bool_decide (signature ∈ seen_messages self) then (false, self)
  else (true, set_seen_messages ({[signature]} ∪ seen_messages self) self).

(** *** process_log_line *)

Definition entry (parsed : parsed) : string :=
  "[" +:+ tag parsed +:+ "] " +:+ message parsed.

(** The part of [process_log_line] under the comment "Store by severity". *)
Definition store_by_severity (self : t) (severity : string)
    (parsed : parsed) : t :=
  if bool_decide (severity = "error") then
    let self := set_error_count (error_count self + 1) self in
    set_errors (errors self ++ [entry parsed]) self
  else if bool_decide (severity = "warning") then
    let self := set_warning_count (warning_count self + 1) self in
    set_warnings (warnings self ++ [entry parsed]) self
  else if bool_decide (severity = "info") then
    let self := set_info_count (info_count self + 1) self in
    if length (info_messages self) <? 20
    then set_info_messages (info_messages self ++ [entry parsed]) self
    else self
  else if bool_decide (severity = "debug") then
    set_debug_count (debug_count self + 1) self
  else
    set_verbose_count (verbose_count self + 1) self.

Definition process_log_line (self : t) (line : string) : result t :=
  if negb (truthy (strip line)) then Ok self
  else
    parsed ← parse_logcat_line line;
    match parsed with
    | None =>
        let self := set_log_lines (log_lines self ++ [line]) self in
        Ok (set_total_lines (total_lines self + 1) self)
    | Some parsed =>
        let self := set_total_lines (total_lines self + 1) self in
        let self := set_log_lines (log_lines self ++ [raw parsed]) self in
        let severity := classify_log_line parsed in
        if negb (contains severity (severity_filter self)) then Ok self
        else if contains severity ["error"; "warning"] then
          let '(new, self) :=
            deduplicate_message self (message parsed) (tag parsed) in
          if negb new then Ok self
          else Ok (store_by_severity self severity parsed)
        else Ok (store_by_severity self severity parsed)
    end.

(** Successive calls of [process_log_line], one per line and in order, as
    the read loop of [stream_logs] makes them (clock and signals left
    out). *)
Fixpoint process_lines (self : t) (lines : list string) : result t :=
  match lines with
  | [] => Ok self
  | line :: lines' =>
      self ← process_log_line self line;
      process_lines self lines'
  end.

(** *** stream_logs: the severity filter of the logcat command *)

(** The loop that fills [priority_letters]. *)
Definition priority_letters (severity_filter : list string) : list string :=
  foldl
    (λ letters sev,
       if bool_decide (sev = "error") then letters ++ ["E"; "F"]
       else if bool_decide (sev = "warning") then letters ++ ["W"]
       else if bool_decide (sev = "info") then letters ++ ["I"]
       else if bool_decide (sev = "debug") then letters ++ ["D"]
       else if bool_decide (sev = "verbose") then letters ++ ["V"]
       else letters)
    [] severity_filter.

Definition priority_order : list string := ["V"; "D"; "I"; "W"; "E"; "F"].

(** [priority_order[min(priority_order.index(p) for p in priority_letters)]]. *)
Definition min_priority (priority_letters : list string) : result string :=
  indices ← mapM (λ p, index p priority_order) priority_letters;
  i ← Py.min indices;
  getitem priority_order i.

(** What the block "Add severity filters" appends to the command. *)
Definition severity_args (self : t) : result (list string) :=
  match severity_filter self with
  | [] => Ok []
  | _ =>
      let priority_letters := priority_letters (severity_filter self) in
      match priority_letters with
      | [] => Ok []
      | _ =>
          min_priority ← min_priority priority_letters;
          Ok ["*:" +:+ min_priority]
      end
  end.

(** *** get_json_output and save_logs *)

Record statistics := {
  stat_total_lines : nat;
  stat_errors : nat;
  stat_warnings : nat;
  stat_info : nat;
  stat_debug : nat;
  stat_verbose : nat;
}.

Record json_output := {
  json_app_package : option string;
  json_device_serial : option string;
  json_statistics : statistics;
  json_errors : list string;
  json_warnings : list string;
  sample_logs : list string;
}.

Definition get_json_output (self : t) : json_output :=
  {| json_app_package := app_package self;
     json_device_serial := device_serial self;
     json_statistics :=
       {| stat_total_lines := total_lines self;
          stat_errors := error_count self;
          stat_warnings := warning_count self;
          stat_info := info_count self;
          stat_debug := debug_count self;
          stat_verbose := verbose_count self |};
     json_errors := first_n 20 (errors self);
     json_warnings := first_n 20 (warnings self);
     sample_logs := last_n 50 (log_lines self) |}.

(** The two files [save_logs] writes; their names come from the clock. *)
Record saved := {
  log_file : string;
  json_file : json_output;
}.

Definition save_logs (self : t) : saved :=
  {| log_file := join newline (log_lines self);
     json_file := get_json_output self |}.

End LogMonitor.


(** * Notions used to state the properties *)

Module Spec.

Import Py Re LogMonitor.

(** What a pattern may match, without the search order: [Matches r s caps
    s' caps'] says that [r] can take a prefix of [s] and leave [s'],
    pushing its groups on [caps]. *)
Inductive Matches
  : regex → string → list string → string → list string → Prop :=
| M_eps s caps :
    Matches Eps s caps s caps
| M_chr cls c s caps :
    cls c = true → Matches (Chr cls) (String c s) caps s caps
| M_cat r1 r2 s caps s1 caps1 s2 caps2 :
    Matches r1 s caps s1 caps1 →
    Matches r2 s1 caps1 s2 caps2 →
    Matches (Cat r1 r2) s caps s2 caps2
| M_star_stop cls s caps :
    Matches (Star cls) s caps s caps
| M_star_step cls c s caps s' :
    cls c = true →
    Matches (Star cls) s caps s' caps →
    Matches (Star cls) (String c s) caps s' caps
| M_group r s caps s' caps' :
    Matches r s caps s' caps' →
    Matches (Group r) s caps s' (consumed s s' :: caps').

Fixpoint ngroups (r : regex) : nat :=
  match r with
  | Eps | Chr _ | Star _ => 0
  | Cat r1 r2 => ngroups r1 + ngroups r2
  | Group r' => S (ngroups r')
  end.

(** Some character of [s] is not white space. *)
Fixpoint has_text (s : string) : bool :=
  match s with
  | EmptyString => false
  | String c s' => negb (isspace c) || has_text s'
  end.

(** [s] without the characters of [cls]. *)
Fixpoint remove (cls : ascii → bool) (s : string) : string :=
  match s with
  | EmptyString => EmptyString
  | String c s' => if cls c then remove cls s' else String c (remove cls s')
  end.

(** Number of leading characters of [s] in [cls], and what follows them. *)
Fixpoint run_length (cls : ascii → bool) (s : string) : nat :=
  match s with
  | EmptyString => 0
  | String c s' => if cls c then S (run_length cls s') else 0
  end.

Fixpoint skip_run (cls : ascii → bool) (s : string) : string :=
  match s with
  | EmptyString => EmptyString
  | String c s' => if cls c then skip_run cls s' else s
  end.

(** Every character of [s] is in [cls]. *)
Fixpoint all_in (cls : ascii → bool) (s : string) : bool :=
  match s with
  | EmptyString => true
  | String c s' => cls c && all_in cls s'
  end.

(** Two texts that differ only in the digits embedded in them: the same
    characters in the same order once digits are set aside. *)
Inductive digit_variant : string → string → Prop :=
| dv_nil :
    digit_variant "" ""
| dv_same c s1 s2 :
    digit_variant s1 s2 → digit_variant (String c s1) (String c s2)
| dv_left c s1 s2 :
    isdigit c = true → digit_variant s1 s2 → digit_variant (String c s1) s2
| dv_right c s1 s2 :
    isdigit c = true → digit_variant s1 s2 → digit_variant s1 (String c s2).

(** [n] submissions of one [(tag, message)] pair in a row: the outcomes in
    order, and the monitor they leave. *)
Fixpoint submit (n : nat) (self : t) (message tag : string) : list bool * t :=
  match n with
  | 0 => ([], self)
  | S n' =>
      let '(new, self) := deduplicate_message self message tag in
      let '(rest, self) := submit n' self message tag in
      (new :: rest, self)
  end.

(** The issue lists and the severity counters of two monitors agree. *)
Definition same_issues (self self' : t) : Prop :=
  errors self' = errors self ∧ warnings self' = warnings self ∧
  info_messages self' = info_messages self ∧
  error_count self' = error_count self ∧
  warning_count self' = warning_count self ∧
  info_count self' = info_count self ∧
  debug_count self' = debug_count self ∧
  verbose_count self' = verbose_count self.

(** [self'] is [self] after one more stored line. *)
Definition one_more_line (self : t) (line : string) (self' : t) : Prop :=
  log_lines self' = log_lines self ++ [line] ∧
  total_lines self' = total_lines self + 1.

(** The duration grammar of the specification: an integer, then one unit
    out of s, m and h, and nothing else. *)
Definition duration_grammar (s : string) : Prop :=
  ∃ ds u, s = ds +:+ String u "" ∧ ds ≠ "" ∧ all_in isdigit ds = true
          ∧ u ∈ ["s"%char; "m"%char; "h"%char].

(** The text starts with an integer that is followed by a unit. *)
Fixpoint unit_after_digits (s : string) : bool :=
  match s with
  | EmptyString => false
  | String c s' =>
      if isdigit c then unit_after_digits s'
      else bool_decide (c ∈ ["s"%char; "m"%char; "h"%char])
  end.

Definition starts_with_duration (s : string) : bool :=
  match s with
  | EmptyString => false
  | String c s' => isdigit c && unit_after_digits s'
  end.

(** The five severity tiers, and the tier of each priority character. *)
Definition tiers : list string :=
  ["verbose"; "debug"; "info"; "warning"; "error"].

Definition tier (priority : string) : option string :=
  if bool_decide (priority = "V") then Some "verbose"
  else if bool_decide (priority = "D") then Some "debug"
  else if bool_decide (priority = "I") then Some "info"
  else if bool_decide (priority = "W") then Some "warning"
  else if bool_decide (priority = "E") then Some "error"
  else if bool_decide (priority = "F") then Some "error"
  else None.

(** The severity vocabulary, the priority characters that each severity
    contributes to the threshold, and the order V < D < I < W < E < F. *)
Definition vocabulary : list string :=
  ["error"; "warning"; "info"; "debug"; "verbose"].

(** The letters that one entry of the filter adds in [stream_logs]. *)
Definition letters_of (sev : string) : list string :=
  if bool_decide (sev = "error") then ["E"; "F"]
  else if bool_decide (sev = "warning") then ["W"]
  else if bool_decide (sev = "info") then ["I"]
  else if bool_decide (sev = "debug") then ["D"]
  else if bool_decide (sev = "verbose") then ["V"]
  else [].

Inductive contributes : string → string → Prop :=
| error_E : contributes "error" "E"
| error_F : contributes "error" "F"
| warning_W : contributes "warning" "W"
| info_I : contributes "info" "I"
| debug_D : contributes "debug" "D"
| verbose_V : contributes "verbose" "V".

Definition contributed (requested : list string) (p : string) : Prop :=
  ∃ sev, sev ∈ requested ∧ contributes sev p.

Definition rank (p : string) : nat :=
  if bool_decide (p = "V") then 0
  else if bool_decide (p = "D") then 1
  else if bool_decide (p = "I") then 2
  else if bool_decide (p = "W") then 3
  else if bool_decide (p = "E") then 4
  else 5.

(** The three lines of the scenario with two errors and one info record. *)
Definition scenario : list string :=
  ["01-01 00:00:00.000 1 1 E TagA: boom 1";
   "01-01 00:00:00.100 1 1 E TagA: boom 2";
   "01-01 00:00:00.200 1 1 I TagB: ok"].

End Spec.

(** * More of the program: command building, the read loop, the command
    line *)

Module DeviceUtils.

Import Py.

(** [common.device_utils.build_adb_command], for arguments that are
    strings, on which [str(arg)] is the identity. *)
Definition build_adb_command (operation : string) (serial : option string)
    (args : list string) : list string :=
  let cmd := ["adb"] in
  let cmd :=
    match serial with
    | Some serial => if truthy serial then cmd ++ ["-s"; serial] else cmd
    | None => cmd
    end in
  let cmd := cmd ++ [operation] in
  cmd ++ args.

End DeviceUtils.

Module Stream.

Import Py LogMonitor DeviceUtils.

(** The command that [stream_logs] builds. [pidof] is what the run of
    "adb shell pidof" gave: its standard output, or nothing when it ended
    with [CalledProcessError]. *)
Definition logcat_command (self : t) (pidof : option string)
    : result (list string) :=
  let cmd := build_adb_command "logcat" (device_serial self) [] in
  let cmd := cmd ++ ["-v"] in
  let cmd := cmd ++ ["time"] in
  let cmd :=
    match app_package self with
    | Some app_package =>
        if truthy app_package then
          match pidof with
          | Some stdout =>
              let pid := strip stdout in
              if truthy pid then cmd ++ ["--pid=" +:+ pid] else cmd
          | None => cmd
          end
        else cmd
    | None => cmd
    end in
  args ← severity_args self;
  Ok (cmd ++ args).

(** One turn of the read loop, as the surroundings decide it: the text that
    [readline] returns, whether the elapsed time has reached the duration
    when the loop compares them, and whether the interrupt flag is set when
    the loop looks at it. *)
Record turn := {
  text : string;
  time_up : bool;
  interrupted : bool;
}.

(** Truth value of [duration]: [None] and 0 are false. *)
Definition duration_set (duration : option Z) : bool :=
  match duration with
  | Some d => negb (d =? 0)%Z
  | None => false
  end.

(** The block "Print in follow mode": the lines it prints. *)
Definition echo (self : t) (follow : bool) (line : string)
    : result (list string) :=
  if follow then
    parsed ← parse_logcat_line line;
    match parsed with
    | Some parsed =>
        let severity := classify_log_line parsed in
        if contains severity (severity_filter self) then Ok [line] else Ok []
    | None => Ok []
    end
  else Ok [].

(** The loop "Process log lines" of [stream_logs]: the monitor it leaves
    and the lines it prints. The empty text is the end of the stream. *)
Fixpoint read_loop (self : t) (follow : bool) (duration : option Z)
    (turns : list turn) : result (t * list string) :=
  match turns with
  | [] => Ok (self, [])
  | turn :: turns' =>
      if negb (truthy (text turn)) then Ok (self, [])
      else
        self ← process_log_line self (rstrip (text turn));
        printed ← echo self follow (rstrip (text turn));
        if duration_set duration && time_up turn then Ok (self, printed)
        else if interrupted turn then Ok (self, printed)
        else
          rest ← read_loop self follow duration turns';
          Ok (rest.1, printed ++ rest.2)
  end.

End Stream.

Module Main.

Import Py LogMonitor.

(** [s.split(sep)] for a separator of one character. *)
Fixpoint split (sep : ascii) (s : string) : list string :=
  match s with
  | EmptyString => [""]
  | String c s' =>
      if bool_decide (c = sep) then "" :: split sep s'
      else
        match split sep s' with
        | x :: l => String c x :: l
        | [] => [String c ""]
        end
  end.

(** The block "Parse severity filter" of [main]. *)
Definition severity_filter_of (severity : option string)
    : option (list string) :=
  match severity with
  | Some severity =>
      if truthy severity
      then Some ((λ s, lower (strip s)) <$> split "," severity)
      else None
  | None => None
  end.


(** The monitor that [main] creates. *)
Definition monitor_of (app_package device_serial severity : option string)
    : t :=
  init app_package device_serial (severity_filter_of severity).

End Main.

Module Saving.

Import Py LogMonitor Main.

(** [app_name] of [save_logs]: the text behind the last dot of the
    package, or "device". The list that [split] returns is never empty. *)
Definition app_name (self : t) : string :=
  match app_package self with
  | Some app_package =>
      if truthy app_package
      then default "" (last (split "." app_package))
      else "device"
  | None => "device"
  end.

(** The names of the two files that [save_logs] writes in the output
    directory; [timestamp] is the clock as [strftime] prints it. *)
Definition log_name (self : t) (timestamp : string) : string :=
  app_name self +:+ "-" +:+ timestamp +:+ ".log".

Definition summary_name (self : t) (timestamp : string) : string :=
  app_name self +:+ "-" +:+ timestamp +:+ "-summary.json".

End Saving.

(** * Notions used to state further properties *)

Module Spec2.

Import Py Re LogMonitor Spec.

(** The monitor with [line] stored and counted in [total_lines], and
    nothing else changed. *)
Definition stored (self : t) (line : string) : t :=
  set_total_lines (total_lines self + 1)
    (set_log_lines (log_lines self ++ [line]) self).

(** What every session keeps true from its start. *)
Record session_ok (self : t) : Prop := {
  ok_errors : error_count self = length (errors self);
  ok_warnings : warning_count self = length (warnings self);
  ok_info : length (info_messages self) = Nat.min 20 (info_count self);
  ok_total : total_lines self = length (log_lines self);
  ok_seen : size (seen_messages self) = error_count self + warning_count self;
  ok_sum : error_count self + warning_count self + info_count self
           + debug_count self + verbose_count self ≤ total_lines self;
  ok_text : Forall (λ line, has_text line = true) (log_lines self);
}.

(** Nothing is taken back: lists grow at their end, counters and the set
    of signatures only grow, and the configuration stays. *)
Record grows (self self' : t) : Prop := {
  g_app : app_package self' = app_package self;
  g_serial : device_serial self' = device_serial self;
  g_filter : severity_filter self' = severity_filter self;
  g_lines : log_lines self `prefix_of` log_lines self';
  g_errors : errors self `prefix_of` errors self';
  g_warnings : warnings self `prefix_of` warnings self';
  g_info : info_messages self `prefix_of` info_messages self';
  g_error_count : error_count self ≤ error_count self';
  g_warning_count : warning_count self ≤ warning_count self';
  g_info_count : info_count self ≤ info_count self';
  g_debug_count : debug_count self ≤ debug_count self';
  g_verbose_count : verbose_count self ≤ verbose_count self';
  g_total : total_lines self ≤ total_lines self';
  g_seen : seen_messages self ⊆ seen_messages self';
}.


(** The sum of the five severity counters. *)
Definition counted (self : t) : nat :=
  error_count self + warning_count self + info_count self
  + debug_count self + verbose_count self.

(** The outcomes of one step, by cases on what the code tests. *)
Inductive outcome (self : t) (line : string) : t → Prop :=
| o_blank :
    has_text line = false → outcome self line self
| o_stored :
    has_text line = true → outcome self line (stored self line)
| o_error e :
    has_text line = true → ∀ sig, sig ∉ seen_messages self →
    outcome self line
      (set_errors (errors self ++ [e])
         (set_error_count (error_count self + 1)
            (set_seen_messages ({[sig]} ∪ seen_messages self)
               (stored self line))))
| o_warning e :
    has_text line = true → ∀ sig, sig ∉ seen_messages self →
    outcome self line
      (set_warnings (warnings self ++ [e])
         (set_warning_count (warning_count self + 1)
            (set_seen_messages ({[sig]} ∪ seen_messages self)
               (stored self line))))
| o_info e :
    has_text line = true → length (info_messages self) < 20 →
    outcome self line
      (set_info_messages (info_messages self ++ [e])
         (set_info_count (info_count self + 1) (stored self line)))
| o_info_full :
    has_text line = true → 20 ≤ length (info_messages self) →
    outcome self line
      (set_info_count (info_count self + 1) (stored self line))
| o_debug :
    has_text line = true →
    outcome self line
      (set_debug_count (debug_count self + 1) (stored self line))
| o_verbose :
    has_text line = true →
    outcome self line
      (set_verbose_count (verbose_count self + 1) (stored self line)).

(** The texts that a pattern matches in full. *)
Fixpoint in_lang (r : regex) (s : string) : Prop :=
  match r with
  | Eps => s = ""
  | Chr cls => ∃ c, s = String c "" ∧ cls c = true
  | Cat r1 r2 => ∃ a b, s = a +:+ b ∧ in_lang r1 a ∧ in_lang r2 b
  | Star cls => all_in cls s = true
  | Group r' => in_lang r' s
  end.

(** The bodies of the groups of a pattern, in the order of [m.groups()]. *)
Fixpoint bodies (r : regex) : list regex :=
  match r with
  | Eps | Chr _ | Star _ => []
  | Cat r1 r2 => bodies r1 ++ bodies r2
  | Group r' => bodies r' ++ [r']
  end.



(** A stored line as the read loop leaves it: it is not empty and holds no
    line feed. *)
Definition plain_line (line : string) : Prop :=
  line ≠ "" ∧ all_in Re.dot line = true.

(** What follows the first item in [join newline (x :: l)]. *)
Definition join_tail (l : list string) : string :=
  match l with
  | [] => ""
  | _ :: _ => newline +:+ join newline l
  end.

(** Two texts that differ only in their white space runs: a white space
    character may stand for another one, and a run may be longer on one
    side than on the other. *)
Inductive space_variant : string → string → Prop :=
| sv_nil :
    space_variant "" ""
| sv_same c s1 s2 :
    space_variant s1 s2 → space_variant (String c s1) (String c s2)
| sv_swap c d s1 s2 :
    isspace c = true → isspace d = true →
    space_variant s1 s2 → space_variant (String c s1) (String d s2)
| sv_left c d s1 s2 :
    isspace c = true → isspace d = true →
    space_variant (String d s1) s2 →
    space_variant (String c (String d s1)) s2
| sv_right c d s1 s2 :
    isspace c = true → isspace d = true →
    space_variant s1 (String d s2) →
    space_variant s1 (String c (String d s2)).

(** The text with each white space run turned into one blank; [in_run]
    says that the blank of the current run is already written. *)
Fixpoint squeeze_from (in_run : bool) (s : string) : string :=
  match s with
  | EmptyString => EmptyString
  | String c s' =>
      if isspace c then
        if in_run then squeeze_from true s'
        else String " " (squeeze_from true s')
      else String c (squeeze_from false s')
  end.

End Spec2.


(** * Facts about strings *)

Section StringFacts.

Lemma str_app_nil_l (s : string) : "" +:+ s = s.
Proof. reflexivity. Qed.

Lemma str_app_cons (c : ascii) (s1 s2 : string) :
  String c s1 +:+ s2 = String c (s1 +:+ s2).
Proof. reflexivity. Qed.

Lemma str_app_nil_r (s : string) : s +:+ "" = s.
Proof. induction s as [|c s IH]; [done|]. by rewrite str_app_cons, IH. Qed.

Lemma str_app_assoc (s1 s2 s3 : string) :
  (s1 +:+ s2) +:+ s3 = s1 +:+ (s2 +:+ s3).
Proof.
  induction s1 as [|c s1 IH]; [done|]. by rewrite !str_app_cons, IH.
Qed.

Lemma str_length_app (s1 s2 : string) :
  String.length (s1 +:+ s2) = String.length s1 + String.length s2.
Proof.
  induction s1 as [|c s1 IH]; [done|]. rewrite str_app_cons. simpl. by rewrite IH.
Qed.

Lemma str_substring_app (s1 s2 : string) :
  String.substring 0 (String.length s1) (s1 +:+ s2) = s1.
Proof.
  induction s1 as [|c s1 IH].
  - by destruct s2.
  - rewrite str_app_cons. simpl. by rewrite IH.
Qed.

Lemma consumed_app (s1 s2 : string) : Re.consumed (s1 +:+ s2) s2 = s1.
Proof.
  unfold Re.consumed. rewrite str_length_app.
  replace (String.length s1 + String.length s2 - String.length s2)
    with (String.length s1) by lia.
  apply str_substring_app.
Qed.

End StringFacts.

(** * Facts about the matcher *)

Module ReFacts.

Import Re Spec.


Section Search.
Context {R : Type}.
Implicit Types (k : string → list string → option R).

Lemma star_k_sound cls s caps k res :
  star_k cls s (λ s', k s' caps) = Some res →
  ∃ s', Matches (Star cls) s caps s' caps ∧ k s' caps = Some res.
Proof.
  induction s as [|c s IH]; simpl; intros Hk.
  - exists "". split; [constructor|done].
  - destruct (cls c) eqn:Hc.
    + destruct (star_k cls s (λ s', k s' caps)) as [res'|] eqn:Hs.
      * injection Hk as <-. destruct (IH eq_refl) as (s' & Hm & Hres).
        exists s'. split; [by constructor|done].
      * exists (String c s). split; [constructor|done].
    + exists (String c s). split; [constructor|done].
Qed.

Lemma star_k_complete cls s caps k s' :
  star_k cls s (λ s', k s' caps) = None →
  Matches (Star cls) s caps s' caps → k s' caps = None.
Proof.
  intros Hk Hm. remember (Star cls) as r eqn:Hr.
  induction Hm as [| | | cls' s caps | cls' c s caps s' Hc Hm IH |];
    try discriminate; injection Hr as ->.
  - destruct s as [|c s]; simpl in Hk; [done|].
    destruct (cls c); [|done].
    by destruct (star_k cls s (λ s', k s' caps)).
  - simpl in Hk. rewrite Hc in Hk.
    destruct (star_k cls s (λ s', k s' caps)) eqn:Hs; [done|].
    by apply IH.
Qed.
End Search.

(** A successful search found a match that the continuation accepts. *)
Lemma match_k_sound {R} r s caps (k : string → list string → option R) res :
  match_k r s caps k = Some res →
  ∃ s' caps', Matches r s caps s' caps' ∧ k s' caps' = Some res.
Proof.
  revert s caps k res.
  induction r as [|cls|r1 IH1 r2 IH2|cls|r IH]; simpl; intros s caps k res Hk.
  - exists s, caps. split; [constructor|done].
  - destruct s as [|c s]; [done|]. destruct (cls c) eqn:Hc; [|done].
    exists s, caps. split; [by constructor|done].
  - destruct (IH1 _ _ _ _ Hk) as (s1 & caps1 & Hm1 & Hk1).
    destruct (IH2 _ _ _ _ Hk1) as (s2 & caps2 & Hm2 & Hk2).
    exists s2, caps2. split; [by econstructor|done].
  - destruct (star_k_sound _ _ _ _ _ Hk) as (s' & Hm & Hres).
    by exists s', caps.
  - destruct (IH _ _ _ _ Hk) as (s' & caps' & Hm & Hres).
    eexists _, _. split; [by constructor|done].
Qed.

(** A failed search means that the continuation refuses every match. *)
Lemma match_k_complete {R} r s caps (k : string → list string → option R)
    s' caps' :
  match_k r s caps k = None → Matches r s caps s' caps' → k s' caps' = None.
Proof.
  intros Hk Hm. revert k Hk.
  induction Hm as [s caps|cls c s caps Hc|r1 r2 s caps s1 caps1 s2 caps2 _ IH1 _ IH2
                  |cls s caps|cls c s caps s' Hc Hm _|r s caps s' caps' _ IH];
    simpl; intros k Hk.
  - done.
  - by rewrite Hc in Hk.
  - apply IH2. by apply (IH1 (λ s' caps', match_k r2 s' caps' k)).
  - by apply (star_k_complete cls s caps k s); [|constructor].
  - by apply (star_k_complete cls (String c s) caps k s'); [|constructor].
  - by apply (IH (λ s' caps', k s' (consumed s s' :: caps'))).
Qed.

(** A match leaves a suffix of the text and pushes one capture per group. *)
Lemma Matches_suffix r s caps s' caps' :
  Matches r s caps s' caps' → ∃ pre, s = pre +:+ s'.
Proof.
  induction 1 as [s caps|cls c s caps Hc|r1 r2 s caps s1 caps1 s2 caps2 _ IH1 _ IH2
                 |cls s caps|cls c s caps s' Hc Hm IH|r s caps s' caps' _ IH].
  - by exists "".
  - by exists (String c "").
  - destruct IH1 as [p1 ->], IH2 as [p2 ->].
    exists (p1 +:+ p2). by rewrite str_app_assoc.
  - by exists "".
  - destruct IH as [p ->]. by exists (String c p).
  - done.
Qed.

Lemma Matches_length r s caps s' caps' :
  Matches r s caps s' caps' → length caps' = ngroups r + length caps.
Proof.
  induction 1; simpl in *; lia.
Qed.

Lemma Matches_star_caps cls s caps s' caps' :
  Matches (Star cls) s caps s' caps' → caps' = caps.
Proof. by inversion 1. Qed.

Lemma re_match_sound r s m :
  re_match r s = Some m →
  ∃ s' caps, Matches r s [] s' caps ∧ groups m = rev caps
             ∧ end_ m = String.length s - String.length s'.
Proof.
  unfold re_match. intros Hm.
  destruct (match_k_sound _ _ _ _ _ Hm) as (s' & caps & HM & Hk).
  injection Hk as <-. by exists s', caps.
Qed.

Lemma re_match_groups_length r s m :
  re_match r s = Some m → length (groups m) = ngroups r.
Proof.
  intros (s' & caps & HM & -> & _)%re_match_sound.
  rewrite length_rev, (Matches_length _ _ _ _ _ HM). simpl. lia.
Qed.

Lemma re_match_none r s s' caps :
  re_match r s = None → ¬ Matches r s [] s' caps.
Proof.
  unfold re_match. intros Hk HM.
  by pose proof (match_k_complete _ _ _ _ _ _ Hk HM).
Qed.

End ReFacts.

(** * Facts about the line parser *)

Module ParserFacts.

Import Py Re Spec ReFacts LogMonitor.

(** Takes a concrete pattern apart into the matches of its pieces. *)
Ltac invert_matches :=
  repeat match goal with
    | H : Matches Eps _ _ _ _ |- _ => inversion H; subst; clear H
    | H : Matches (Chr _) _ _ _ _ |- _ => inversion H; subst; clear H
    | H : Matches (Cat _ _) _ _ _ _ |- _ => inversion H; subst; clear H
    | H : Matches (Group _) _ _ _ _ |- _ => inversion H; subst; clear H
    | H : Matches (Star _) _ _ _ _ |- _ =>
        apply Matches_star_caps in H; simplify_eq
    end.

Lemma consumed_one c s : consumed (String c s) s = String c "".
Proof. apply (consumed_app (String c "") s). Qed.

Lemma one_of_priority c :
  one_of "VDIWEF" c = true →
  String c "" ∈ ["V"; "D"; "I"; "W"; "E"; "F"].
Proof.
  unfold one_of. intros H%bool_decide_eq_true_1. simpl in H.
  rewrite !elem_of_cons in H. rewrite elem_of_nil in H.
  rewrite !elem_of_cons.
  destruct H as [->|[->|[->|[->|[->|[->|[]]]]]]]; auto 10.
Qed.

(** The shape that [logcat_pattern] imposes on a matching line: it starts
    with a digit, and its fourth group is one priority letter. *)
Lemma logcat_match_shape line m :
  re_match logcat_pattern line = Some m →
  ∃ c rest timestamp pid tid p tag message,
    line = String c rest ∧ isdigit c = true ∧
    groups m = [timestamp; pid; tid; p; tag; message] ∧
    p ∈ ["V"; "D"; "I"; "W"; "E"; "F"].
Proof.
  intros (s' & caps & HM & Hg & _)%re_match_sound.
  cbv [logcat_pattern cat_all Count Plus] in HM.
  invert_matches.
  rewrite Hg. simpl.
  eexists _, _, _, _, _, _, _, _. split; [reflexivity|].
  split; [assumption|]. split; [reflexivity|].
  rewrite consumed_one. by apply one_of_priority.
Qed.

(** [parse_logcat_line] returns a dict or [None]; it raises on no line. *)
Lemma parse_logcat_line_total line :
  ∃ r, parse_logcat_line line = Ok r.
Proof.
  unfold parse_logcat_line.
  destruct (re_match logcat_pattern line) as [m|] eqn:Hm; [|by eexists].
  destruct (logcat_match_shape _ _ Hm) as (?&?&?&?&?&?&?&?&_&_&->&_).
  by eexists.
Qed.

Lemma parse_logcat_line_Some line parsed :
  parse_logcat_line line = Ok (Some parsed) →
  raw parsed = line ∧
  priority parsed ∈ ["V"; "D"; "I"; "W"; "E"; "F"] ∧
  severity parsed = default "unknown" (PRIORITY_MAP !! priority parsed) ∧
  ∃ c rest, line = String c rest ∧ isdigit c = true.
Proof.
  unfold parse_logcat_line.
  destruct (re_match logcat_pattern line) as [m|] eqn:Hm; [|done].
  destruct (logcat_match_shape _ _ Hm)
    as (c&rest&?&?&?&p&?&?&Hline&Hc&->&Hp).
  intros [= <-]. simpl. eauto 10.
Qed.

End ParserFacts.

(** * Facts about [strip] and about removing a character class *)

Module TextFacts.

Import Py Re Spec ReFacts.

Lemma lstrip_no_text s : has_text s = false → lstrip s = "".
Proof.
  induction s as [|c s IH]; simpl; [done|].
  destruct (isspace c); simpl; [auto|done].
Qed.

Lemma lstrip_text s :
  has_text s = true → ∃ c t, lstrip s = String c t ∧ isspace c = false.
Proof.
  induction s as [|c s IH]; simpl; [done|].
  destruct (isspace c) eqn:Hc; simpl; [auto|]. intros _. by exists c, s.
Qed.

Lemma lstrip_app_text a c b :
  isspace c = false → truthy (lstrip (a +:+ String c b)) = true.
Proof.
  intros Hc. induction a as [|x a IH].
  - rewrite str_app_nil_l. simpl. by rewrite Hc.
  - rewrite str_app_cons. simpl. by destruct (isspace x).
Qed.

Lemma rev_app_app s acc : String.rev_app s acc = String.rev s +:+ acc.
Proof.
  unfold String.rev. revert acc.
  induction s as [|c s IH]; intros acc; simpl; [done|].
  rewrite (IH (String c acc)), (IH (String c "")).
  by rewrite str_app_assoc.
Qed.

Lemma rev_truthy s : truthy (String.rev s) = truthy s.
Proof.
  destruct s as [|c s]; [done|]. unfold String.rev. simpl.
  rewrite rev_app_app. by destruct (String.rev s).
Qed.

(** The guard [line.strip()] of [process_log_line] is true exactly on the
    lines that hold a character other than white space. *)
Lemma truthy_strip s : truthy (strip s) = has_text s.
Proof.
  unfold strip, rstrip. rewrite rev_truthy.
  destruct (has_text s) eqn:Hs.
  - destruct (lstrip_text s Hs) as (c & t & -> & Hc).
    unfold String.rev. simpl. rewrite rev_app_app.
    by apply lstrip_app_text.
  - by rewrite (lstrip_no_text s Hs).
Qed.

Lemma remove_app cls s1 s2 :
  remove cls (s1 +:+ s2) = remove cls s1 +:+ remove cls s2.
Proof.
  induction s1 as [|c s1 IH]; [done|]. rewrite str_app_cons. simpl.
  destruct (cls c); [done|]. by rewrite str_app_cons, IH.
Qed.

Lemma run_skip_length cls s :
  String.length s = run_length cls s + String.length (skip_run cls s).
Proof.
  induction s as [|c s IH]; simpl; [done|]. destruct (cls c); simpl; lia.
Qed.

(** A greedy star whose continuation accepts everything takes the whole
    run. *)
Lemma star_k_all {R} cls s (f : string → R) :
  star_k cls s (λ s', Some (f s')) = Some (f (skip_run cls s)).
Proof.
  induction s as [|c s IH]; simpl; [done|].
  destruct (cls c); [|done]. by rewrite IH.
Qed.

(** [re.match] of the pattern [cls+]. *)
Lemma re_match_plus cls c s :
  re_match (Plus cls) (String c s)
  = if cls c
    then Some {| groups := []; end_ := S (run_length cls s) |}
    else None.
Proof.
  unfold re_match, Plus. simpl. destruct (cls c); [|done].
  rewrite (star_k_all cls s
             (λ rest, {| groups := [];
                         end_ := S (String.length s) - String.length rest |})).
  do 2 f_equal. pose proof (run_skip_length cls s). lia.
Qed.

Lemma sub_go_plus_empty cls skip s :
  skip ≤ run_length cls s → sub_go (Plus cls) "" skip s = remove cls s.
Proof.
  revert skip. induction s as [|c s IH]; intros skip Hskip; [done|].
  simpl in *. destruct skip as [|n].
  - rewrite re_match_plus. destruct (cls c); simpl.
    + rewrite str_app_nil_l. by apply IH.
    + f_equal. apply IH. lia.
  - destruct (cls c); [|lia]. apply IH. lia.
Qed.

(** [re.sub(cls+, "", s)] deletes exactly the characters of [cls]. *)
Lemma sub_plus_empty cls s : sub (Plus cls) "" s = remove cls s.
Proof. apply sub_go_plus_empty. lia. Qed.

End TextFacts.

(** * Facts about the deduplicator *)

Module DedupFacts.

Import Py Re Spec TextFacts LogMonitor.

(** The signature is the joined text without its digits, with white space
    normalised. *)
Lemma signature_remove message tag :
  signature message tag
  = strip (sub (Plus space) " " (remove isdigit (tag +:+ ":" +:+ message))).
Proof. unfold signature. by rewrite sub_plus_empty. Qed.

Lemma digit_variant_remove s1 s2 :
  digit_variant s1 s2 → remove isdigit s1 = remove isdigit s2.
Proof.
  induction 1 as [|c s1 s2 _ IH|c s1 s2 Hc _ IH|c s1 s2 Hc _ IH]; simpl.
  - done.
  - by rewrite IH.
  - by rewrite Hc.
  - by rewrite Hc.
Qed.

Lemma remove_digit_variant s1 s2 :
  remove isdigit s1 = remove isdigit s2 → digit_variant s1 s2.
Proof.
  revert s2. induction s1 as [|c s1 IH]; intros s2.
  - induction s2 as [|d s2 IH2]; simpl; [constructor|].
    destruct (isdigit d) eqn:Hd; [|done]. intros H. by apply dv_right, IH2.
  - simpl. destruct (isdigit c) eqn:Hc.
    + intros H. by apply dv_left, IH.
    + induction s2 as [|d s2 IH2]; simpl; [done|].
      destruct (isdigit d) eqn:Hd.
      * intros H. by apply dv_right, IH2.
      * intros [= -> H]. by apply dv_same, IH.
Qed.

Lemma dedup_seen self message tag :
  signature message tag ∈ seen_messages self →
  deduplicate_message self message tag = (false, self).
Proof. intros H. unfold deduplicate_message. by rewrite bool_decide_true. Qed.

Lemma dedup_new self message tag :
  signature message tag ∉ seen_messages self →
  deduplicate_message self message tag
  = (true, set_seen_messages
             ({[signature message tag]} ∪ seen_messages self) self).
Proof. intros H. unfold deduplicate_message. by rewrite bool_decide_false. Qed.

(** Whatever the outcome, the signature is in the set afterwards. *)
Lemma dedup_records self message tag :
  signature message tag
  ∈ seen_messages (deduplicate_message self message tag).2.
Proof.
  destruct (decide (signature message tag ∈ seen_messages self)) as [H|H].
  - by rewrite dedup_seen.
  - rewrite dedup_new by done. simpl. set_solver.
Qed.

Lemma submit_seen n self message tag :
  signature message tag ∈ seen_messages self →
  submit n self message tag = (replicate n false, self).
Proof.
  intros H. induction n as [|n IH]; simpl; [done|].
  by rewrite dedup_seen, IH.
Qed.

End DedupFacts.

(** * Facts about the per-line step *)

Module ProcessFacts.

Import Py Re Spec ReFacts ParserFacts TextFacts DedupFacts LogMonitor.

(** Splits on every test that the code under study makes. *)
Ltac split_tests :=
  repeat first
    [ progress simpl
    | case_bool_decide
    | match goal with
      | |- context [if ?b then _ else _] => destruct b eqn:?
      end ].

Lemma store_by_severity_lines self severity p :
  log_lines (store_by_severity self severity p) = log_lines self ∧
  total_lines (store_by_severity self severity p) = total_lines self ∧
  severity_filter (store_by_severity self severity p) = severity_filter self.
Proof. unfold store_by_severity. by split_tests. Qed.

Lemma dedup_lines self message tag :
  log_lines (deduplicate_message self message tag).2 = log_lines self ∧
  total_lines (deduplicate_message self message tag).2 = total_lines self ∧
  severity_filter (deduplicate_message self message tag).2
  = severity_filter self.
Proof. unfold deduplicate_message. by split_tests. Qed.

Lemma process_blank self line :
  has_text line = false → process_log_line self line = Ok self.
Proof.
  intros H. unfold process_log_line. by rewrite truthy_strip, H.
Qed.

Lemma process_unparsed self line :
  has_text line = true → parse_logcat_line line = Ok None →
  process_log_line self line
  = Ok (set_total_lines (total_lines self + 1)
          (set_log_lines (log_lines self ++ [line]) self)).
Proof.
  intros H Hp. unfold process_log_line. by rewrite truthy_strip, H, Hp.
Qed.

(** A parsed line is never blank: it starts with a digit. *)
Lemma parsed_has_text line p :
  parse_logcat_line line = Ok (Some p) → has_text line = true.
Proof.
  intros (_ & _ & _ & c & rest & -> & Hc)%parse_logcat_line_Some. simpl.
  assert (isspace c = false) as ->; [|done].
  unfold isdigit, isspace in *.
  destruct (48 <=? code c) eqn:H1, (code c <=? 57) eqn:H2; try done.
  apply Nat.leb_le in H1, H2.
  repeat match goal with
    | |- context [?a <=? ?b] =>
        first [ rewrite (proj2 (Nat.leb_le a b)) by lia
              | rewrite (proj2 (Nat.leb_gt a b)) by lia ]
    | |- context [?a =? ?b] => rewrite (proj2 (Nat.eqb_neq a b)) by lia
    end.
  done.
Qed.

(** The step never raises; it stores the line unless the line is blank, and
    leaves the severity filter alone. *)
Lemma process_log_line_lines self line :
  ∃ self', process_log_line self line = Ok self' ∧
    log_lines self' = log_lines self ++ (if has_text line then [line] else [])
    ∧ total_lines self'
      = total_lines self + (if has_text line then 1 else 0)
    ∧ severity_filter self' = severity_filter self.
Proof.
  destruct (has_text line) eqn:Htext.
  2:{ exists self. rewrite process_blank by done.
      by rewrite app_nil_r, Nat.add_0_r. }
  destruct (parse_logcat_line_total line) as [[p|] Hp].
  2:{ eexists. by rewrite process_unparsed. }
  unfold process_log_line. rewrite truthy_strip, Htext, Hp. simpl.
  destruct (parse_logcat_line_Some _ _ Hp) as (-> & _).
  set (self1 := set_log_lines _ _).
  destruct (contains (classify_log_line p) (severity_filter self)); simpl;
    [|by eexists].
  destruct (contains (classify_log_line p) ["error"; "warning"]).
  - pose proof (dedup_lines self1 (message p) (tag p)) as (H1 & H2 & H3).
    destruct (deduplicate_message self1 (message p) (tag p)) as [new self2].
    simpl in *. destruct new; simpl; eexists; (split; [done|]).
    + pose proof (store_by_severity_lines self2 (classify_log_line p) p)
        as (-> & -> & ->).
      by rewrite H1, H2, H3.
    + by rewrite H1, H2, H3.
  - eexists. split; [done|].
    by pose proof (store_by_severity_lines self1 (classify_log_line p) p)
      as (-> & -> & ->).
Qed.

Lemma process_lines_lines lines self :
  ∃ self', process_lines self lines = Ok self' ∧
    log_lines self' = log_lines self ++ List.filter has_text lines ∧
    total_lines self'
    = total_lines self + length (List.filter has_text lines).
Proof.
  revert self. induction lines as [|line lines IH]; intros self; simpl.
  - exists self. by rewrite app_nil_r, Nat.add_0_r.
  - destruct (process_log_line_lines self line) as (s1 & -> & Hl & Ht & _).
    simpl. destruct (IH s1) as (s2 & -> & Hl2 & Ht2).
    exists s2. split; [done|]. rewrite Hl2, Ht2, Hl, Ht.
    destruct (has_text line); simpl.
    + rewrite <- app_assoc. split; [done|lia].
    + rewrite app_nil_r. split; [done|lia].
Qed.

End ProcessFacts.

(** * Facts about the duration pattern and the severity tiers *)

Module DurationFacts.

Import Py Re Spec ReFacts ParserFacts LogMonitor.

Lemma unit_not_digit u :
  u ∈ ["s"%char; "m"%char; "h"%char] → isdigit u = false.
Proof.
  rewrite !elem_of_cons, elem_of_nil. by intros [->|[->|[->|[]]]].
Qed.

Lemma star_digit_then_unit s caps u rest caps' :
  Matches (Star digit) s caps (String u rest) caps' →
  u ∈ ["s"%char; "m"%char; "h"%char] →
  unit_after_digits s = true.
Proof.
  intros HM Hu. remember (Star digit) as r eqn:Hr.
  remember (String u rest) as s' eqn:Hs'.
  induction HM as [| | |cls s caps|cls c s caps s' Hc HM IH|];
    try discriminate; injection Hr as ->.
  - subst s. simpl. rewrite (unit_not_digit u Hu). by apply bool_decide_eq_true_2.
  - simpl. unfold digit in Hc. rewrite Hc. by apply IH.
Qed.

(** Whatever [duration_pattern] matches starts with an integer and a unit. *)
Lemma duration_match_shape s m :
  re_match duration_pattern s = Some m → starts_with_duration s = true.
Proof.
  intros (s' & caps & HM & _)%re_match_sound.
  cbv [duration_pattern Plus] in HM.
  repeat match goal with
    | H : Matches (Cat _ _) _ _ _ _ |- _ => inversion H; subst; clear H
    | H : Matches (Group _) _ _ _ _ |- _ => inversion H; subst; clear H
    | H : Matches (Chr _) _ _ _ _ |- _ => inversion H; subst; clear H
    end.
  simpl. apply andb_true_iff. split; [assumption|].
  eapply star_digit_then_unit; [eassumption|].
  match goal with
  | H : one_of _ _ = true |- _ => exact (bool_decide_eq_true_1 _ H)
  end.
Qed.

Lemma unit_after_digits_spec s :
  unit_after_digits s = true ↔
  ∃ ds u rest, s = ds +:+ String u rest ∧ all_in isdigit ds = true
               ∧ u ∈ ["s"%char; "m"%char; "h"%char].
Proof.
  split.
  - induction s as [|c s IH]; simpl; [done|].
    destruct (isdigit c) eqn:Hc.
    + intros (ds & u & rest & -> & Hds & Hu)%IH.
      exists (String c ds), u, rest. simpl. by rewrite Hc.
    + intros Hu%bool_decide_eq_true_1. by exists "", c, s.
  - intros (ds & u & rest & -> & Hds & Hu).
    induction ds as [|d ds IH]; simpl in *.
    + rewrite ?str_app_nil_l. simpl. rewrite (unit_not_digit u Hu).
      by apply bool_decide_eq_true_2.
    + apply andb_true_iff in Hds as [Hd Hds]. rewrite ?str_app_cons. simpl.
      rewrite Hd. by apply IH.
Qed.

(** [starts_with_duration] in words: an integer, a unit, then anything. *)
Lemma starts_with_duration_spec s :
  starts_with_duration s = true ↔
  ∃ ds u rest, s = ds +:+ String u rest ∧ ds ≠ "" ∧ all_in isdigit ds = true
               ∧ u ∈ ["s"%char; "m"%char; "h"%char].
Proof.
  split.
  - destruct s as [|c s]; simpl; [done|].
    intros [Hc (ds & u & rest & -> & Hds & Hu)%unit_after_digits_spec]
      %andb_true_iff.
    exists (String c ds), u, rest. simpl. by rewrite Hc.
  - intros (ds & u & rest & -> & Hne & Hds & Hu).
    destruct ds as [|c ds]; [done|]. simpl in *.
    apply andb_true_iff in Hds as [Hc Hds]. rewrite ?str_app_cons. simpl.
    rewrite Hc. simpl. apply unit_after_digits_spec. by exists ds, u, rest.
Qed.

Lemma parse_time_duration_no_match duration_str :
  starts_with_duration (lower duration_str) = false →
  parse_time_duration duration_str = Raise (invalid_duration duration_str).
Proof.
  intros H. unfold parse_time_duration.
  destruct (re_match duration_pattern (lower duration_str)) as [m|] eqn:Hm;
    [|done].
  apply duration_match_shape in Hm. congruence.
Qed.

End DurationFacts.

(** * Facts about the logcat threshold *)

Module ThresholdFacts.

Import Py Spec LogMonitor.

Lemma letters_of_contributes sev q : q ∈ letters_of sev ↔ contributes sev q.
Proof.
  unfold letters_of. split.
  - repeat case_bool_decide; subst;
      rewrite ?elem_of_cons, elem_of_nil; intros Hq;
      repeat (destruct Hq as [->|Hq]; [constructor|]); done.
  - by destruct 1; simpl; rewrite !elem_of_cons; auto.
Qed.

Lemma letters_step acc sev :
  (if bool_decide (sev = "error") then acc ++ ["E"; "F"]
   else if bool_decide (sev = "warning") then acc ++ ["W"]
   else if bool_decide (sev = "info") then acc ++ ["I"]
   else if bool_decide (sev = "debug") then acc ++ ["D"]
   else if bool_decide (sev = "verbose") then acc ++ ["V"]
   else acc) = acc ++ letters_of sev.
Proof.
  unfold letters_of. repeat case_bool_decide; try done.
  by rewrite app_nil_r.
Qed.

Lemma contributed_cons sev l q :
  contributed (sev :: l) q ↔ contributes sev q ∨ contributed l q.
Proof.
  unfold contributed. split.
  - intros (s & [->|Hs]%elem_of_cons & Hc); [by left|right; eauto].
  - intros [Hc|(s & Hs & Hc)].
    + exists sev. split; [apply list_elem_of_here|done].
    + exists s. split; [by apply list_elem_of_further|done].
Qed.

(** The letters that the loop collects are the contributed ones. *)
Lemma priority_letters_spec requested q :
  q ∈ priority_letters requested ↔ contributed requested q.
Proof.
  unfold priority_letters.
  assert (∀ l acc, q ∈ foldl
            (λ letters sev,
               if bool_decide (sev = "error") then letters ++ ["E"; "F"]
               else if bool_decide (sev = "warning") then letters ++ ["W"]
               else if bool_decide (sev = "info") then letters ++ ["I"]
               else if bool_decide (sev = "debug") then letters ++ ["D"]
               else if bool_decide (sev = "verbose") then letters ++ ["V"]
               else letters) acc l
            ↔ q ∈ acc ∨ contributed l q) as Hgen.
  { induction l as [|sev l IH]; intros acc; simpl.
    - split; [by left|]. intros [H|(s & Hs & _)]; [done|].
      by apply elem_of_nil in Hs.
    - rewrite IH, letters_step, elem_of_app, letters_of_contributes.
      rewrite contributed_cons. tauto. }
  rewrite Hgen, elem_of_nil. tauto.
Qed.

Lemma contributes_in_order sev q : contributes sev q → q ∈ priority_order.
Proof. destruct 1; unfold priority_order; rewrite !elem_of_cons; auto 10. Qed.

Lemma index_rank q :
  q ∈ priority_order → index q priority_order = Ok (rank q).
Proof.
  unfold priority_order. rewrite !elem_of_cons, elem_of_nil.
  by intros [->|[->|[->|[->|[->|[->|[]]]]]]].
Qed.

Lemma getitem_rank q :
  q ∈ priority_order → getitem priority_order (rank q) = Ok q.
Proof.
  unfold priority_order. rewrite !elem_of_cons, elem_of_nil.
  by intros [->|[->|[->|[->|[->|[->|[]]]]]]].
Qed.

Lemma mapM_index letters :
  Forall (λ q, q ∈ priority_order) letters →
  mapM (λ p, index p priority_order) letters = Ok (rank <$> letters).
Proof.
  induction 1 as [|q letters Hq _ IH]; [done|].
  cbn [mapM]. rewrite index_rank by done. cbn [bind]. by rewrite IH.
Qed.

(** [min] of a non-empty list is a least element of it. *)
Lemma min_least x l :
  ∃ m, Py.min (x :: l) = Ok m ∧ m ∈ x :: l ∧ ∀ y, y ∈ x :: l → m ≤ y.
Proof.
  simpl. eexists. split; [done|]. revert x.
  induction l as [|z l IH]; intros x; simpl.
  - split; [apply list_elem_of_here|]. by intros y ->%list_elem_of_singleton.
  - destruct (IH (Nat.min x z)) as [Hin Hle]. split.
    + apply elem_of_cons in Hin as [->|Hin].
      * destruct (Nat.min_spec x z) as [[_ ->]|[_ ->]];
          rewrite !elem_of_cons; auto.
      * rewrite !elem_of_cons; auto.
    + intros y Hy.
      assert (foldl Nat.min (Nat.min x z) l ≤ Nat.min x z) as H0
        by (apply Hle, list_elem_of_here).
      rewrite !elem_of_cons in Hy. destruct Hy as [->|[->|Hy]]; [lia..|].
      apply Hle. by apply list_elem_of_further.
Qed.

Lemma min_priority_least letters :
  letters ≠ [] → Forall (λ q, q ∈ priority_order) letters →
  ∃ p, min_priority letters = Ok p ∧ p ∈ letters ∧
       ∀ q, q ∈ letters → rank p ≤ rank q.
Proof.
  intros Hne Hall. unfold min_priority. rewrite (mapM_index _ Hall).
  destruct letters as [|x l]; [done|].
  destruct (min_least (rank x) (rank <$> l)) as (m & Hm & Hin & Hle).
  change (Ok (rank <$> x :: l) ≫= _)
    with (i ← Py.min (rank x :: (rank <$> l)); getitem priority_order i).
  rewrite Hm.
  change (rank x :: (rank <$> l)) with (rank <$> x :: l) in Hin, Hle.
  apply list_elem_of_fmap in Hin as (p & -> & Hp).
  exists p. split.
  - apply getitem_rank. by eapply Forall_forall in Hall.
  - split; [done|]. intros q Hq. apply Hle. by apply list_elem_of_fmap_2.
Qed.

End ThresholdFacts.

(** * The model on sample inputs *)

Module Examples.

Import Py Re LogMonitor.

(** The line of the docstring of [parse_logcat_line]. *)
Example parse_docstring_line :
  parse_logcat_line
    "12-11 18:30:45.123  1234  5678 E ActivityManager: Error message"
  = Ok (Some {| timestamp := "12-11 18:30:45.123";
                pid := "1234";
                tid := "5678";
                priority := "E";
                severity := "error";
                tag := "ActivityManager";
                message := "Error message";
                raw := "12-11 18:30:45.123  1234  5678 E "
                       +:+ "ActivityManager: Error message" |}).
Proof. vm_compute. reflexivity. Qed.

(** The tag ends at the first colon, the message may hold more of them. *)
Example parse_colons_in_message :
  match parse_logcat_line "01-01 00:00:00.000 1 1 W Net: host: down " with
  | Ok (Some p) => tag p = "Net" ∧ message p = "host: down"
  | _ => False
  end.
Proof. by vm_compute. Qed.

(** White space in front of the colon: the search gives one blank back to
    the tag group, which is then stripped to the empty tag. *)
Example parse_blank_tag :
  match parse_logcat_line "01-01 00:00:00.000 1 1 F   : gone" with
  | Ok (Some p) => priority p = "F" ∧ tag p = "" ∧ message p = "gone"
  | _ => False
  end.
Proof. by vm_compute. Qed.

Example parse_banner :
  parse_logcat_line "--------- beginning of main" = Ok None.
Proof. vm_compute. reflexivity. Qed.

Example parse_unknown_priority :
  parse_logcat_line "01-01 00:00:00.000 1 1 X Tag: text" = Ok None.
Proof. vm_compute. reflexivity. Qed.

Example signature_example :
  signature "Failed   at 12 of 99" "Tag7" = "Tag:Failed at of".
Proof. vm_compute. reflexivity. Qed.

Example durations :
  parse_time_duration <$> ["30s"; "5m"; "1h"; "007H"]
  = [Ok 30%Z; Ok 300%Z; Ok 3600%Z; Ok 25200%Z].
Proof. vm_compute. reflexivity. Qed.

Example threshold_examples :
  (λ f, severity_args (init None None (Some f)))
    <$> [["error"]; ["warning"; "error"]; ["info"; "verbose"]; ["other"]]
  = [Ok ["*:E"]; Ok ["*:W"]; Ok ["*:V"]; Ok []].
Proof. vm_compute. reflexivity. Qed.

End Examples.

(** * The properties of the log monitor *)

Section Properties.

Import Py Re Spec ReFacts ParserFacts TextFacts DedupFacts ProcessFacts.
Import LogMonitor.

(** C1, as the specification has it, fails on the scenario: the second
    "boom" line is a duplicate, and the duplicate is not counted, so the
    three lines leave [error_count] at 1 and not at 2. *)
Lemma scenario_counts_one_error :
  ¬ ∃ s, process_lines (init None None None) scenario = Ok s ∧
         error_count s = 2 ∧ info_count s = 1 ∧
         length (errors s) = 1 ∧ length (info_messages s) = 1.
Proof.
  intros (s & Hs & Hcount & _).
  vm_compute in Hs. injection Hs as <-. vm_compute in Hcount. discriminate.
Qed.

(** C1 (amended): an error or warning record that passes the severity
    filter and whose signature was seen before in the session is left out
    of the issue lists and of the severity counters alike; only the stored
    lines and the total line count change. The three lines of the scenario,
    with the default filter, leave [error_count = 1], [info_count = 1], one
    entry in the errors list and one in the info list. *)
Theorem duplicate_issue_not_counted :
  (∀ (self : t) (line : string) (p : parsed),
     parse_logcat_line line = Ok (Some p) →
     classify_log_line p ∈ ["error"; "warning"] →
     classify_log_line p ∈ severity_filter self →
     signature (message p) (tag p) ∈ seen_messages self →
     ∃ self', process_log_line self line = Ok self' ∧
              one_more_line self line self' ∧ same_issues self self' ∧
              seen_messages self' = seen_messages self) ∧
  (∃ s, process_lines (init None None None) scenario = Ok s ∧
        error_count s = 1 ∧ info_count s = 1 ∧
        errors s = ["[TagA] boom 1"] ∧ info_messages s = ["[TagB] ok"] ∧
        total_lines s = 3).
Proof.
  split.
  - intros self line p Hp Hcls Hfilter Hseen.
    unfold process_log_line.
    rewrite truthy_strip, (parsed_has_text _ _ Hp), Hp. simpl.
    unfold contains. rewrite !bool_decide_true by done. simpl.
    rewrite dedup_seen by done. simpl.
    destruct (parse_logcat_line_Some _ _ Hp) as (-> & _).
    eexists. split; [done|]. by repeat split.
  - eexists. split; [vm_compute; reflexivity|]. by vm_compute.
Qed.

(** Witness for C1: the second "boom" line, in a session that has seen the
    signature of the first. *)
Lemma duplicate_issue_not_counted_witness :
  let self := set_seen_messages {["TagA:boom"]} (init None None None) in
  let line := "01-01 00:00:00.100 1 1 E TagA: boom 2" in
  let p := {| timestamp := "01-01 00:00:00.100"; pid := "1"; tid := "1";
              priority := "E"; severity := "error"; tag := "TagA";
              message := "boom 2"; raw := line |} in
  parse_logcat_line line = Ok (Some p) ∧
  classify_log_line p ∈ ["error"; "warning"] ∧
  classify_log_line p ∈ severity_filter self ∧
  signature (message p) (tag p) ∈ seen_messages self ∧
  ∃ self', process_log_line self line = Ok self' ∧
           one_more_line self line self' ∧ same_issues self self' ∧
           seen_messages self' = seen_messages self.
Proof.
  intros self line p.
  assert (parse_logcat_line line = Ok (Some p)) as H1
    by (vm_compute; reflexivity).
  assert (classify_log_line p ∈ ["error"; "warning"]) as H2
    by (vm_compute; apply list_elem_of_here).
  assert (classify_log_line p ∈ severity_filter self) as H3
    by (vm_compute; apply list_elem_of_here).
  assert (signature (message p) (tag p) ∈ seen_messages self) as H4
    by (vm_compute; reflexivity).
  repeat (split; [assumption|]).
  exact (proj1 duplicate_issue_not_counted self line p H1 H2 H3 H4).
Defined.

(** C2, as the specification has it, fails: nothing is evicted from
    [log_lines]; after fifty-one lines it holds fifty-one entries, the
    oldest among them, and so does the saved log file. *)
Lemma log_lines_exceed_fifty :
  ∃ s, process_lines (init None None None)
         ("first" :: replicate 50 "later") = Ok s ∧
       ¬ length (log_lines s) ≤ 50 ∧
       head (log_lines s) = Some "first" ∧
       log_file (save_logs s) = join newline ("first" :: replicate 50 "later").
Proof.
  eexists. split; [vm_compute; reflexivity|].
  split; [vm_compute; lia|]. split; vm_compute; reflexivity.
Qed.

(** C2 (amended): [log_lines] keeps every line that is not blank, in
    arrival order and without a cap, and the saved log file is all of them
    joined by line feeds; the bound of fifty holds for the [sample_logs] of
    the JSON output, which are the last fifty stored lines. *)
Theorem log_lines_keep_every_line (self : t) (lines : list string) :
  ∃ self', process_lines self lines = Ok self' ∧
    log_lines self' = log_lines self ++ List.filter has_text lines ∧
    log_file (save_logs self') = join newline (log_lines self') ∧
    sample_logs (get_json_output self') = last_n 50 (log_lines self') ∧
    sample_logs (get_json_output self') `suffix_of` log_lines self' ∧
    length (sample_logs (get_json_output self'))
    = Nat.min 50 (length (log_lines self')).
Proof.
  destruct (process_lines_lines lines self) as (self' & Hrun & Hlines & _).
  exists self'. repeat split; try done.
  - apply suffix_drop.
  - change (sample_logs (get_json_output self'))
      with (last_n 50 (log_lines self')).
    unfold last_n. rewrite length_drop. lia.
Qed.

(** C3, as the specification has it, fails on the empty line: it is
    raw-only, and it is dropped, neither stored nor counted. *)
Lemma blank_line_dropped :
  parse_logcat_line "" = Ok None ∧
  ∃ s, process_log_line (init None None None) "" = Ok s ∧
       log_lines s = [] ∧ total_lines s = 0.
Proof. split; [by vm_compute|]. eexists. by vm_compute. Qed.

(** C3 (amended): every line has exactly one outcome, a parsed record that
    carries the line or no record. A raw-only line that holds a character
    other than white space is appended to [log_lines] and counted in
    [total_lines], and changes no severity counter and no issue list; a
    blank line changes nothing at all. *)
Theorem raw_only_line_stored_unless_blank (self : t) (line : string) :
  (∃ p, parse_logcat_line line = Ok (Some p) ∧ raw p = line) ∨
  (parse_logcat_line line = Ok None ∧
   ∃ self', process_log_line self line = Ok self' ∧
     if has_text line
     then one_more_line self line self' ∧ same_issues self self' ∧
          seen_messages self' = seen_messages self
     else self' = self).
Proof.
  destruct (parse_logcat_line_total line) as [[p|] Hp].
  - left. exists p. split; [done|]. by apply parse_logcat_line_Some.
  - right. split; [done|]. destruct (has_text line) eqn:Htext.
    + eexists. rewrite process_unparsed by done. split; [done|].
      by repeat split.
    + exists self. by rewrite process_blank.
Qed.

(** C4, as the specification has it, fails on the empty line: it does not
    match the pattern, and the monitor does not retain it. *)
Lemma empty_line_not_retained :
  parse_logcat_line "" = Ok None ∧
  ∃ s, process_log_line (init None None None) "" = Ok s ∧
       "" ∉ log_lines s.
Proof.
  split; [by vm_compute|]. eexists. split; [vm_compute; reflexivity|].
  simpl. apply not_elem_of_nil.
Qed.

(** C4 (amended): the parser raises on no input; it returns a record whose
    raw text is the line, or no record. A line without a record is kept as
    it is, at the end of [log_lines], when it holds a character other than
    white space, and is skipped when it is blank; the step does not raise
    either. *)
Theorem parser_total_line_kept_unless_blank (line : string) :
  ∃ r, parse_logcat_line line = Ok r ∧
    match r with
    | Some p => raw p = line
    | None =>
        ∀ self, ∃ self', process_log_line self line = Ok self' ∧
          log_lines self'
          = log_lines self ++ (if has_text line then [line] else [])
    end.
Proof.
  destruct (parse_logcat_line_total line) as [[p|] Hp].
  - exists (Some p). split; [done|]. by apply parse_logcat_line_Some.
  - exists None. split; [done|]. intros self.
    destruct (process_log_line_lines self line) as (self' & Hs & Hl & _).
    by exists self'.
Qed.

(** C5, as the specification has it, fails on "30S": the text is not in
    the grammar, whose units are the lower-case s, m and h, and it is
    accepted all the same, since the text is lower-cased before the match. *)
Lemma uppercase_unit_accepted :
  ¬ duration_grammar "30S" ∧ parse_time_duration "30S" = Ok 30%Z.
Proof.
  split; [|by vm_compute].
  intros (ds & u & Heq & _ & _ & Hu).
  destruct ds as [|a [|b [|c ds]]]; try discriminate.
  - injection Heq as _ _ <-.
    rewrite !elem_of_cons, elem_of_nil in Hu. by destruct Hu as [|[|[|]]].
  - injection Heq as _ _ _ Heq. by destruct ds.
Qed.

(** C5 (amended): duration parsing maps "30s" to 30, "5m" to 300 and "1h"
    to 3600, rejects "5x", and raises the error for every text that, once
    lower-cased, does not start with an integer followed by one of s, m
    and h. *)
Theorem duration_examples_and_rejection :
  parse_time_duration "30s" = Ok 30%Z ∧
  parse_time_duration "5m" = Ok 300%Z ∧
  parse_time_duration "1h" = Ok 3600%Z ∧
  parse_time_duration "5x" = Raise (invalid_duration "5x") ∧
  ∀ duration_str,
    starts_with_duration (lower duration_str) = false →
    parse_time_duration duration_str = Raise (invalid_duration duration_str).
Proof.
  repeat split; try by vm_compute.
  apply DurationFacts.parse_time_duration_no_match.
Qed.

(** Witness for C5: the text "5 minutes". *)
Lemma duration_examples_and_rejection_witness :
  starts_with_duration (lower "5 minutes") = false ∧
  parse_time_duration "5 minutes" = Raise (invalid_duration "5 minutes").
Proof.
  split; [reflexivity|].
  apply (proj2 (proj2 (proj2 (proj2 duration_examples_and_rejection)))).
  reflexivity.
Defined.

(** C6: the signature does not depend on the digits of the message. Two
    messages that differ only in embedded digits give, under one tag, the
    same signature, and in any session the second of them is reported as a
    duplicate once the first was submitted. *)
Theorem signature_numeral_invariant (tag m1 m2 : string) :
  digit_variant m1 m2 →
  signature m1 tag = signature m2 tag ∧
  ∀ self, (deduplicate_message
             (deduplicate_message self m1 tag).2 m2 tag).1 = false.
Proof.
  intros Hv.
  assert (signature m1 tag = signature m2 tag) as Hsig.
  { rewrite !signature_remove, !remove_app.
    by rewrite (digit_variant_remove _ _ Hv). }
  split; [done|]. intros self. rewrite dedup_seen; [done|].
  rewrite <- Hsig. apply dedup_records.
Qed.

(** Witness for C6: "Failed at 12" and "Failed at 99" under the tag "Tag". *)
Lemma signature_numeral_invariant_witness :
  digit_variant "Failed at 12" "Failed at 99" ∧
  signature "Failed at 12" "Tag" = signature "Failed at 99" "Tag" ∧
  ∀ self, (deduplicate_message
             (deduplicate_message self "Failed at 12" "Tag").2
             "Failed at 99" "Tag").1 = false.
Proof.
  assert (digit_variant "Failed at 12" "Failed at 99") as H.
  { do 10 apply dv_same.
    apply dv_left; [reflexivity|]. apply dv_left; [reflexivity|].
    apply dv_right; [reflexivity|]. apply dv_right; [reflexivity|].
    apply dv_nil. }
  split; [assumption|].
  exact (signature_numeral_invariant "Tag" "Failed at 12" "Failed at 99" H).
Defined.

(** C7: a pair submitted [n > 1] times in a row is novel once and a
    duplicate [n - 1] times: the first submission returns true and every
    later one false. This holds in a fresh session, and in any session that
    has not seen the signature of the pair. *)
Theorem dedup_one_novel (message tag : string) (n : nat) :
  1 < n →
  (∀ app_package device_serial severity_filter,
     (submit n (init app_package device_serial severity_filter)
        message tag).1 = true :: replicate (n - 1) false) ∧
  (∀ self, signature message tag ∉ seen_messages self →
     (submit n self message tag).1 = true :: replicate (n - 1) false).
Proof.
  intros Hn.
  assert (∀ self, signature message tag ∉ seen_messages self →
            (submit n self message tag).1 = true :: replicate (n - 1) false)
    as Hgen.
  { intros self Hnew. destruct n as [|n]; [lia|]. simpl.
    rewrite dedup_new by done. rewrite submit_seen by (simpl; set_solver).
    simpl. by rewrite Nat.sub_0_r. }
  split; [|done]. intros a d f. apply Hgen. simpl. set_solver.
Qed.

(** Witness for C7: three submissions of one pair in a fresh session. *)
Lemma dedup_one_novel_witness :
  (1 < 3) ∧
  (signature "Failed at 12" "Tag" ∉ seen_messages (init None None None)) ∧
  (submit 3 (init None None None) "Failed at 12" "Tag").1
  = [true; false; false].
Proof.
  assert (1 < 3) as H by lia.
  assert (signature "Failed at 12" "Tag"
          ∉ seen_messages (init None None None)) as Hnew
    by (simpl; apply not_elem_of_empty).
  split; [assumption|]. split; [assumption|].
  exact (proj2 (dedup_one_novel "Failed at 12" "Tag" 3 H)
           (init None None None) Hnew).
Defined.

(** C8, as the specification has it, fails on the stored field: for the
    priority character F the record's [severity] is "fatal", which is none
    of the five tiers, while the classification is "error". *)
Lemma fatal_stored_as_fatal :
  ∃ p, parse_logcat_line "01-01 00:00:00.000 1 1 F Tag: died" = Ok (Some p) ∧
       priority p = "F" ∧ classify_log_line p = "error" ∧
       severity p = "fatal" ∧ severity p ∉ tiers.
Proof.
  eexists. split; [vm_compute; reflexivity|]. simpl.
  repeat split; try reflexivity.
  unfold tiers. rewrite !elem_of_cons, elem_of_nil.
  by intros [|[|[|[|[|]]]]].
Qed.

(** C8 (amended): for every parsed record the classification used for
    counting and filtering is one of the five tiers, given by V to verbose,
    D to debug, I to info, W to warning, E to error and F to error. The
    [severity] field stored on the record is the [PRIORITY_MAP] name of the
    priority: the same tier, except for F, which is stored as "fatal". *)
Theorem severity_tier_of_parsed (line : string) (p : parsed) :
  parse_logcat_line line = Ok (Some p) →
  ∃ sev, tier (priority p) = Some sev ∧ sev ∈ tiers ∧
         classify_log_line p = sev ∧
         severity p = (if bool_decide (priority p = "F") then "fatal" else sev).
Proof.
  intros (_ & Hprio & -> & _)%parse_logcat_line_Some.
  unfold classify_log_line. destruct p as [? ? ? prio ? ? ? ?]. simpl in *.
  rewrite !elem_of_cons, elem_of_nil in Hprio.
  destruct Hprio as [->|[->|[->|[->|[->|[->|[]]]]]]];
    eexists; (split; [reflexivity|]);
    (split; [unfold tiers; rewrite !elem_of_cons; auto 10|]);
    split; reflexivity.
Qed.

(** Witness for C8: an error line. *)
Lemma severity_tier_of_parsed_witness :
  let line := "01-01 00:00:00.000 1 1 E TagA: boom 1" in
  let p := {| timestamp := "01-01 00:00:00.000"; pid := "1"; tid := "1";
              priority := "E"; severity := "error"; tag := "TagA";
              message := "boom 1"; raw := line |} in
  parse_logcat_line line = Ok (Some p) ∧
  ∃ sev, tier (priority p) = Some sev ∧ sev ∈ tiers ∧
         classify_log_line p = sev ∧
         severity p = (if bool_decide (priority p = "F") then "fatal" else sev).
Proof.
  intros line p.
  assert (parse_logcat_line line = Ok (Some p)) as H
    by (vm_compute; reflexivity).
  split; [assumption|].
  exact (severity_tier_of_parsed line p H).
Defined.

(** C10: the digits of the tag are deleted with those of the message. The
    signature is the text "tag:message" without its digits, with white
    space normalised; two tags that differ only in embedded digits give,
    with one message, the same signature, and in any session the second
    pair is reported as a duplicate once the first was submitted. *)
Theorem signature_ignores_tag_digits (tag1 tag2 message : string) :
  digit_variant tag1 tag2 →
  signature message tag1
  = strip (sub (Plus space) " "
             (remove isdigit (tag1 +:+ ":" +:+ message))) ∧
  signature message tag1 = signature message tag2 ∧
  ∀ self, (deduplicate_message
             (deduplicate_message self message tag1).2 message tag2).1
          = false.
Proof.
  intros Hv. split; [apply signature_remove|].
  assert (signature message tag1 = signature message tag2) as Hsig.
  { rewrite !signature_remove, !remove_app.
    by rewrite (digit_variant_remove _ _ Hv). }
  split; [done|]. intros self. rewrite dedup_seen; [done|].
  rewrite <- Hsig. apply dedup_records.
Qed.

(** Witness for C10: the tags "Worker1" and "Worker2". *)
Lemma signature_ignores_tag_digits_witness :
  digit_variant "Worker1" "Worker2" ∧
  signature "job failed" "Worker1" = signature "job failed" "Worker2" ∧
  ∀ self, (deduplicate_message
             (deduplicate_message self "job failed" "Worker1").2
             "job failed" "Worker2").1 = false.
Proof.
  assert (digit_variant "Worker1" "Worker2") as H.
  { do 6 apply dv_same.
    apply dv_left; [reflexivity|]. apply dv_right; [reflexivity|].
    apply dv_nil. }
  split; [assumption|].
  exact (proj2 (signature_ignores_tag_digits "Worker1" "Worker2"
                  "job failed" H)).
Defined.

(** C9: for every non-empty list of severities out of error, warning, info,
    debug and verbose, the threshold appended to the logcat command is one
    priority character: a character contributed by the list (error gives E
    and F, warning W, info I, debug D, verbose V) that is least among the
    contributed ones in the order V < D < I < W < E < F. With the default
    filter the threshold is D. *)
Theorem min_priority_threshold :
  (∀ app_package device_serial (requested : list string),
     requested ≠ [] →
     Forall (λ sev, sev ∈ vocabulary) requested →
     ∃ p, severity_args (init app_package device_serial (Some requested))
          = Ok ["*:" +:+ p] ∧
          contributed requested p ∧
          ∀ q, contributed requested q → rank p ≤ rank q) ∧
  (∀ app_package device_serial,
     severity_filter (init app_package device_serial None)
     = ["error"; "warning"; "info"; "debug"] ∧
     severity_args (init app_package device_serial None) = Ok ["*:D"]).
Proof.
  split; [|done]. intros a d requested Hne Hvoc.
  destruct requested as [|sev l]; [done|].
  assert (∃ q, contributed (sev :: l) q) as [q0 Hq0].
  { apply Forall_cons in Hvoc as [Hsev _]. unfold vocabulary in Hsev.
    rewrite !elem_of_cons, elem_of_nil in Hsev.
    destruct Hsev as [->|[->|[->|[->|[->|[]]]]]];
      eexists; (eexists; split; [apply list_elem_of_here|constructor]). }
  apply ThresholdFacts.priority_letters_spec in Hq0.
  destruct (ThresholdFacts.min_priority_least (priority_letters (sev :: l)))
    as (p & Hp & Hin & Hle).
  { intros Heq. rewrite Heq in Hq0. by apply elem_of_nil in Hq0. }
  { apply Forall_forall. intros q (s & _ & Hc)%ThresholdFacts.priority_letters_spec.
    by eapply ThresholdFacts.contributes_in_order. }
  exists p. split; [|split].
  - unfold severity_args. simpl severity_filter.
    destruct (priority_letters (sev :: l)) as [|x letters] eqn:Hl.
    + by apply elem_of_nil in Hq0.
    + by rewrite Hp.
  - by apply ThresholdFacts.priority_letters_spec.
  - intros q Hq. by apply Hle, ThresholdFacts.priority_letters_spec.
Qed.

(** Witness for C9: the filter of errors and warnings asks for W. *)
Lemma min_priority_threshold_witness :
  ["error"; "warning"] ≠ [] ∧
  Forall (λ sev, sev ∈ vocabulary) ["error"; "warning"] ∧
  ∃ p, severity_args (init None None (Some ["error"; "warning"]))
       = Ok ["*:" +:+ p] ∧
       contributed ["error"; "warning"] p ∧
       ∀ q, contributed ["error"; "warning"] q → rank p ≤ rank q.
Proof.
  assert (["error"; "warning"] ≠ ([] : list string)) as H1 by discriminate.
  assert (Forall (λ sev, sev ∈ vocabulary) ["error"; "warning"]) as H2.
  { repeat apply Forall_cons_2; [..|apply Forall_nil_2];
      unfold vocabulary; rewrite !elem_of_cons; auto. }
  split; [assumption|]. split; [assumption|].
  exact (proj1 min_priority_threshold None None ["error"; "warning"] H1 H2).
Defined.

End Properties.

(** * Facts about one step of a session *)

Module StepFacts.

Import Py Re Spec Spec2 ReFacts ParserFacts TextFacts DedupFacts ProcessFacts.
Import LogMonitor.

(** The step on a line that the parser accepts. *)
Lemma process_parsed self line p :
  parse_logcat_line line = Ok (Some p) →
  process_log_line self line
  = if negb (contains (classify_log_line p) (severity_filter self))
    then Ok (stored self line)
    else if contains (classify_log_line p) ["error"; "warning"] then
      if bool_decide (signature (message p) (tag p) ∈ seen_messages self)
      then Ok (stored self line)
      else Ok (store_by_severity
                 (set_seen_messages
                    ({[signature (message p) (tag p)]} ∪ seen_messages self)
                    (stored self line))
                 (classify_log_line p) p)
    else Ok (store_by_severity (stored self line) (classify_log_line p) p).
Proof.
  intros Hp. unfold process_log_line.
  rewrite truthy_strip, (parsed_has_text _ _ Hp), Hp. simpl.
  destruct (parse_logcat_line_Some _ _ Hp) as (-> & _).
  destruct (contains (classify_log_line p) (severity_filter self));
    [|done]. simpl.
  destruct (contains (classify_log_line p) ["error"; "warning"]); [|done].
  unfold deduplicate_message. simpl. by case_bool_decide.
Qed.

Lemma classify_tier line p :
  parse_logcat_line line = Ok (Some p) → classify_log_line p ∈ tiers.
Proof.
  intros (_ & Hprio & _)%parse_logcat_line_Some.
  unfold classify_log_line. destruct p as [? ? ? prio ? ? ? ?]. simpl in *.
  rewrite !elem_of_cons, elem_of_nil in Hprio. unfold tiers.
  destruct Hprio as [->|[->|[->|[->|[->|[->|[]]]]]]];
    match goal with
    | |- ?x ∈ _ => let v := eval vm_compute in x in change x with v
    end; rewrite !elem_of_cons; auto 10.
Qed.

Lemma process_log_line_outcome self line :
  ∃ self', process_log_line self line = Ok self' ∧ outcome self line self'.
Proof.
  destruct (has_text line) eqn:Htext.
  2:{ exists self. rewrite process_blank by done. split; [done|].
      by constructor. }
  destruct (parse_logcat_line_total line) as [[p|] Hp].
  2:{ eexists. rewrite process_unparsed by done. split; [done|].
      by apply o_stored. }
  rewrite (process_parsed _ _ _ Hp).
  pose proof (classify_tier _ _ Hp) as Htier.
  destruct (contains (classify_log_line p) (severity_filter self)); simpl.
  2:{ eexists. split; [done|]. by apply o_stored. }
  unfold tiers in Htier. rewrite !elem_of_cons, elem_of_nil in Htier.
  destruct Htier as [->|[->|[->|[->|[->|[]]]]]].
  - eexists. split; [done|]. exact (o_verbose self line Htext).
  - eexists. split; [done|]. exact (o_debug self line Htext).
  - change (contains "info" ["error"; "warning"]) with false.
    cbv iota. unfold store_by_severity.
    change (bool_decide ("info" = "error")) with false.
    change (bool_decide ("info" = "warning")) with false.
    change (bool_decide ("info" = "info")) with true. cbv iota.
    destruct (Nat.ltb_spec
                (length (info_messages
                           (set_info_count (info_count (stored self line) + 1)
                              (stored self line)))) 20) as [Hlt|Hge];
      eexists; (split; [done|]).
    + exact (o_info self line (entry p) Htext Hlt).
    + exact (o_info_full self line Htext Hge).
  - change (contains "warning" ["error"; "warning"]) with true. cbv iota.
    case_bool_decide as Hseen; eexists; (split; [done|]).
    + by apply o_stored.
    + exact (o_warning self line (entry p) Htext _ Hseen).
  - change (contains "error" ["error"; "warning"]) with true. cbv iota.
    case_bool_decide as Hseen; eexists; (split; [done|]).
    + by apply o_stored.
    + exact (o_error self line (entry p) Htext _ Hseen).
Qed.

End StepFacts.

(** * Facts about whole sessions *)

Module SessionFacts.

Import Py Re Spec Spec2 TextFacts DedupFacts ProcessFacts StepFacts.
Import LogMonitor.

Local Arguments Nat.min : simpl never.

Lemma init_session_ok app_package device_serial severity_filter :
  session_ok (init app_package device_serial severity_filter).
Proof. by constructor. Qed.

Lemma size_add_new (sig : string) (seen : gset string) :
  sig ∉ seen → size ({[sig]} ∪ seen) = S (size seen).
Proof.
  intros Hnew. rewrite size_union by set_solver. by rewrite size_singleton.
Qed.

Lemma outcome_session_ok self line self' :
  session_ok self → outcome self line self' → session_ok self'.
Proof.
  intros [He Hw Hi Ht Hs Hsum Htext] Ho.
  assert (Forall (λ l, has_text l = true) (log_lines self ++ [line])
          ∨ has_text line = false) as Hall.
  { destruct (has_text line) eqn:Hl; [left|by right].
    apply Forall_app. split; [done|]. by apply Forall_singleton. }
  destruct Ho; try (destruct Hall as [Hall|Hall]; [|congruence]);
    constructor; simpl;
    rewrite ?length_app, ?size_add_new by done; simpl; try done; lia.
Qed.

Lemma grows_refl self : grows self self.
Proof. constructor; try done. Qed.

Lemma grows_trans s1 s2 s3 : grows s1 s2 → grows s2 s3 → grows s1 s3.
Proof.
  intros [] []. constructor; try congruence; try (by etrans); lia.
Qed.

Lemma outcome_grows self line self' : outcome self line self' → grows self self'.
Proof.
  destruct 1; constructor; simpl; try done; try lia;
    try (by apply prefix_app_r); set_solver.
Qed.

(** Any number of steps: the session never raises, keeps its invariants
    and takes nothing back. *)
Lemma process_lines_session self lines :
  ∃ self', process_lines self lines = Ok self' ∧ grows self self' ∧
           (session_ok self → session_ok self').
Proof.
  revert self. induction lines as [|line lines IH]; intros self; simpl.
  - exists self. split; [done|]. split; [apply grows_refl|done].
  - destruct (process_log_line_outcome self line) as (s1 & -> & Ho). simpl.
    destruct (IH s1) as (s2 & -> & Hg & Hok). exists s2. split; [done|].
    split.
    + eapply grows_trans; [by eapply outcome_grows|done].
    + intros H. by eapply Hok, outcome_session_ok.
Qed.

End SessionFacts.

(** * Facts about storing by severity *)

Module SeverityFacts.

Import Py Spec Spec2 LogMonitor.

Lemma store_error self p :
  store_by_severity self "error" p
  = set_errors (errors self ++ [entry p])
      (set_error_count (error_count self + 1) self).
Proof. reflexivity. Qed.

Lemma store_warning self p :
  store_by_severity self "warning" p
  = set_warnings (warnings self ++ [entry p])
      (set_warning_count (warning_count self + 1) self).
Proof. reflexivity. Qed.

Lemma store_info self p :
  store_by_severity self "info" p
  = if length (info_messages self) <? 20
    then set_info_messages (info_messages self ++ [entry p])
           (set_info_count (info_count self + 1) self)
    else set_info_count (info_count self + 1) self.
Proof. reflexivity. Qed.

Lemma store_debug self p :
  store_by_severity self "debug" p
  = set_debug_count (debug_count self + 1) self.
Proof. reflexivity. Qed.

Lemma store_verbose self p :
  store_by_severity self "verbose" p
  = set_verbose_count (verbose_count self + 1) self.
Proof. reflexivity. Qed.

Lemma contains_true x l : x ∈ l → contains x l = true.
Proof. intros H. unfold contains. by rewrite bool_decide_true. Qed.

Lemma contains_false x l : x ∉ l → contains x l = false.
Proof. intros H. unfold contains. by rewrite bool_decide_false. Qed.

End SeverityFacts.

(** * Facts about issues and their signatures *)

Module IssueFacts.

Import Py Re Spec Spec2 TextFacts DedupFacts ProcessFacts StepFacts.
Import SeverityFacts LogMonitor.

(** Once an error or a warning has gone through the step, its signature
    is in the set. *)
Lemma issue_signature_recorded self line p :
  parse_logcat_line line = Ok (Some p) →
  classify_log_line p ∈ ["error"; "warning"] →
  classify_log_line p ∈ severity_filter self →
  ∃ self', process_log_line self line = Ok self' ∧
           signature (message p) (tag p) ∈ seen_messages self' ∧
           severity_filter self' = severity_filter self.
Proof.
  intros Hp Hsev Hin. rewrite (process_parsed _ _ _ Hp).
  rewrite (contains_true _ _ Hin), (contains_true _ _ Hsev). simpl.
  case_bool_decide as Hseen; [by eexists|].
  rewrite !elem_of_cons, elem_of_nil in Hsev.
  destruct Hsev as [Hc|[Hc|[]]]; rewrite Hc.
  - rewrite store_error. eexists. split; [done|]. simpl. split; [|done].
    set_solver.
  - rewrite store_warning. eexists. split; [done|]. simpl. split; [|done].
    set_solver.
Qed.

(** Texts equal up to digits, tag for tag and message for message, have one
    signature. *)
Lemma signature_digit_variant m1 t1 m2 t2 :
  digit_variant t1 t2 → digit_variant m1 m2 →
  signature m1 t1 = signature m2 t2.
Proof.
  intros Ht Hm. rewrite !signature_remove, !remove_app.
  by rewrite (digit_variant_remove _ _ Ht), (digit_variant_remove _ _ Hm).
Qed.

End IssueFacts.

(** * More facts about strings: reversal and stripping *)

Module StripFacts.

Import Py Spec TextFacts.

Lemma rev_cons c s : String.rev (String c s) = String.rev s +:+ String c "".
Proof. unfold String.rev at 1. simpl. apply rev_app_app. Qed.

Lemma rev_app a b : String.rev (a +:+ b) = String.rev b +:+ String.rev a.
Proof.
  induction a as [|c a IH].
  - by rewrite str_app_nil_l, str_app_nil_r.
  - by rewrite str_app_cons, !rev_cons, IH, str_app_assoc.
Qed.

Lemma rev_involutive s : String.rev (String.rev s) = s.
Proof.
  induction s as [|c s IH]; [done|].
  by rewrite rev_cons, rev_app, IH.
Qed.

Lemma all_in_app cls a b :
  all_in cls (a +:+ b) = all_in cls a && all_in cls b.
Proof.
  induction a as [|c a IH]; [done|]. rewrite str_app_cons. simpl.
  by rewrite IH, andb_assoc.
Qed.

Lemma all_in_rev cls s : all_in cls (String.rev s) = all_in cls s.
Proof.
  induction s as [|c s IH]; [done|]. rewrite rev_cons, all_in_app, IH.
  simpl. by rewrite andb_true_r, andb_comm.
Qed.

Lemma all_in_lstrip cls s : all_in cls s = true → all_in cls (lstrip s) = true.
Proof.
  induction s as [|c s IH]; simpl; [done|].
  intros [Hc Hs]%andb_true_iff. destruct (isspace c); [auto|].
  simpl. by rewrite Hc, Hs.
Qed.

(** Stripping keeps inside a class the text that was inside it. *)
Lemma all_in_strip cls s : all_in cls s = true → all_in cls (strip s) = true.
Proof.
  intros H. unfold strip, rstrip. rewrite all_in_rev.
  apply all_in_lstrip. rewrite all_in_rev. by apply all_in_lstrip.
Qed.

Lemma has_text_app a b : has_text (a +:+ b) = has_text a || has_text b.
Proof.
  induction a as [|c a IH]; [done|]. rewrite str_app_cons. simpl.
  by rewrite IH, orb_assoc.
Qed.

Lemma has_text_rev s : has_text (String.rev s) = has_text s.
Proof.
  induction s as [|c s IH]; [done|]. rewrite rev_cons, has_text_app, IH.
  simpl. by rewrite orb_false_r, orb_comm.
Qed.

Lemma lstrip_app a b :
  lstrip (a +:+ b) = if has_text a then lstrip a +:+ b else lstrip b.
Proof.
  induction a as [|c a IH]; [done|]. rewrite str_app_cons. simpl.
  destruct (isspace c); simpl; [done|]. by rewrite str_app_cons.
Qed.

Lemma truthy_rstrip s : truthy (rstrip s) = has_text s.
Proof.
  unfold rstrip. rewrite rev_truthy.
  destruct (has_text s) eqn:Hs.
  - rewrite <- has_text_rev in Hs.
    by destruct (lstrip_text _ Hs) as (c & t & -> & _).
  - rewrite <- has_text_rev in Hs. by rewrite (lstrip_no_text _ Hs).
Qed.

(** [rstrip] read from the left. *)
Lemma rstrip_cons c s :
  rstrip (String c s)
  = if isspace c && negb (has_text s) then "" else String c (rstrip s).
Proof.
  unfold rstrip. rewrite rev_cons, lstrip_app, has_text_rev.
  destruct (has_text s) eqn:Hs.
  - rewrite andb_false_r. by rewrite rev_app.
  - rewrite andb_true_r. rewrite <- has_text_rev in Hs.
    rewrite (lstrip_no_text _ Hs). simpl. by destruct (isspace c).
Qed.

Lemma lstrip_idem s : lstrip (lstrip s) = lstrip s.
Proof.
  induction s as [|c s IH]; simpl; [done|].
  destruct (isspace c) eqn:Hc; [done|]. simpl. by rewrite Hc.
Qed.

Lemma rstrip_idem s : rstrip (rstrip s) = rstrip s.
Proof. unfold rstrip. by rewrite rev_involutive, lstrip_idem. Qed.

Lemma lstrip_rstrip_lstrip s : lstrip (rstrip (lstrip s)) = rstrip (lstrip s).
Proof.
  induction s as [|c s IH]; simpl; [done|].
  destruct (isspace c) eqn:Hc; [done|].
  rewrite rstrip_cons, Hc. simpl. by rewrite Hc.
Qed.

(** Stripping twice is stripping once. *)
Lemma strip_idem s : strip (strip s) = strip s.
Proof.
  unfold strip. by rewrite lstrip_rstrip_lstrip, rstrip_idem.
Qed.

Lemma has_text_rstrip s : has_text (rstrip s) = has_text s.
Proof.
  induction s as [|c s IH]; [done|]. rewrite rstrip_cons.
  destruct (isspace c) eqn:Hc, (has_text s) eqn:Hs; simpl;
    by rewrite ?Hc, ?IH.
Qed.

End StripFacts.

(** * Facts about what the groups of a match hold *)

Module GroupFacts.

Import Py Re Spec Spec2 ReFacts ParserFacts TextFacts StripFacts LogMonitor.

Lemma Forall2_rev {A B} (P : A → B → Prop) l k :
  Forall2 P l k → Forall2 P (rev l) (rev k).
Proof.
  induction 1 as [|x y l k Hxy _ IH]; simpl; [constructor|].
  apply Forall2_app; [done|]. by repeat constructor.
Qed.

(** A match takes a text of the pattern's language off the front, and each
    of its groups holds a text of the language of its body. *)
Lemma Matches_groups r s caps s' caps' :
  Matches r s caps s' caps' →
  ∃ pre new, s = pre +:+ s' ∧ in_lang r pre ∧ caps' = new ++ caps ∧
             Forall2 in_lang (rev (bodies r)) new.
Proof.
  induction 1 as [s caps|cls c s caps Hc
                 |r1 r2 s caps s1 caps1 s2 caps2 _ IH1 _ IH2
                 |cls s caps|cls c s caps s' Hc _ IH|r s caps s' caps' _ IH].
  - exists "", []. simpl. by repeat split; try constructor.
  - exists (String c ""), []. simpl. repeat split; try constructor.
    by exists c.
  - destruct IH1 as (p1 & n1 & -> & Hl1 & -> & Hg1).
    destruct IH2 as (p2 & n2 & -> & Hl2 & -> & Hg2).
    exists (p1 +:+ p2), (n2 ++ n1). simpl.
    split; [by rewrite str_app_assoc|].
    split; [by exists p1, p2|]. split; [by rewrite app_assoc|].
    rewrite rev_app_distr. by apply Forall2_app.
  - exists "", []. simpl. by repeat split; try constructor.
  - destruct IH as (pre & new & -> & Hl & Hcaps & Hg). simpl in *.
    exists (String c pre), []. simpl. rewrite Hc, Hl.
    by repeat split; try constructor.
  - destruct IH as (pre & new & -> & Hl & -> & Hg).
    exists pre, (pre :: new). simpl. rewrite consumed_app.
    split; [done|]. split; [done|]. split; [done|].
    rewrite rev_app_distr. simpl. by constructor.
Qed.

Lemma re_match_groups r s m :
  re_match r s = Some m → Forall2 in_lang (bodies r) (groups m).
Proof.
  intros (s' & caps & HM & -> & _)%re_match_sound.
  destruct (Matches_groups _ _ _ _ _ HM) as (pre & new & _ & _ & -> & Hg).
  rewrite app_nil_r. apply Forall2_rev in Hg. by rewrite List.rev_involutive in Hg.
Qed.

Lemma in_lang_plus cls s :
  in_lang (Plus cls) s → s ≠ "" ∧ all_in cls s = true.
Proof.
  intros (a & b & -> & (c & -> & Hc) & Hb). simpl in *.
  rewrite str_app_cons, str_app_nil_l. simpl. by rewrite Hc, Hb.
Qed.

(** The fields of a parsed record, by the classes of the pattern. *)
Lemma parsed_fields line p :
  parse_logcat_line line = Ok (Some p) →
  (pid p ≠ "" ∧ all_in isdigit (pid p) = true) ∧
  (tid p ≠ "" ∧ all_in isdigit (tid p) = true) ∧
  all_in (none_of ":") (tag p) = true ∧
  all_in dot (message p) = true ∧
  strip (tag p) = tag p ∧ strip (message p) = message p.
Proof.
  unfold parse_logcat_line.
  destruct (re_match logcat_pattern line) as [m|] eqn:Hm; [|done].
  pose proof (re_match_groups _ _ _ Hm) as Hg.
  destruct (logcat_match_shape _ _ Hm) as (?&?&ts&pd&td&pr&tg&msg&_&_&Hgr&_).
  rewrite Hgr in *. intros [= <-]. simpl.
  assert (∃ stamp, bodies logcat_pattern
                   = [stamp; Plus digit; Plus digit;
                      Chr (one_of "VDIWEF"); Plus (none_of ":"); Star dot])
    as [stamp Hb] by (eexists; reflexivity).
  rewrite Hb in Hg.
  repeat match goal with
    | H : Forall2 _ (_ :: _) (_ :: _) |- _ =>
        apply Forall2_cons in H as [? H]
    end.
  repeat match goal with
    | H : in_lang (Plus _) _ |- _ => apply in_lang_plus in H as [? ?]
    end.
  split; [done|]. split; [done|]. split; [by apply all_in_strip|].
  split; [apply all_in_strip; assumption|].
  split; apply strip_idem.
Qed.

End GroupFacts.

(** * Facts about accepted durations *)

Module AcceptFacts.

Import Py Re Spec Spec2 ReFacts ParserFacts TextFacts DurationFacts.
Import LogMonitor.



End AcceptFacts.

(** * Facts about the threshold and the filter of a monitor *)

Module FilterFacts.

Import Py Re Spec Spec2 ParserFacts ProcessFacts StepFacts ThresholdFacts.
Import LogMonitor.

(** The threshold of a non-empty collection of letters is one of them, and
    no letter of the collection ranks below it. *)
Lemma letters_threshold requested :
  priority_letters requested ≠ [] →
  ∃ q, min_priority (priority_letters requested) = Ok q ∧
       q ∈ priority_letters requested ∧ q ∈ priority_order ∧
       ∀ x, x ∈ priority_letters requested → rank q ≤ rank x.
Proof.
  intros Hne.
  assert (Forall (λ q, q ∈ priority_order) (priority_letters requested))
    as Hall.
  { apply Forall_forall. intros q (s & _ & Hc)%priority_letters_spec.
    by eapply contributes_in_order. }
  destruct (min_priority_least _ Hne Hall) as (q & Hq & Hin & Hle).
  exists q. split; [done|]. split; [done|]. split; [|done].
  by eapply Forall_forall in Hall.
Qed.

Lemma severity_args_cases self :
  (priority_letters (severity_filter self) = [] ∧ severity_args self = Ok [])
  ∨ ∃ q, severity_args self = Ok ["*:" +:+ q] ∧
         q ∈ priority_order ∧
         q ∈ priority_letters (severity_filter self) ∧
         ∀ x, x ∈ priority_letters (severity_filter self) → rank q ≤ rank x.
Proof.
  unfold severity_args.
  destruct (priority_letters (severity_filter self)) as [|x l] eqn:Hl.
  - left. split; [done|]. by destruct (severity_filter self).
  - right.
    destruct (letters_threshold (severity_filter self)) as (q & Hq & H1 & H2 & H3);
      [by rewrite Hl|].
    rewrite Hl in Hq, H1, H3. exists q.
    destruct (severity_filter self) as [|sev rest]; [done|].
    rewrite Hq. simpl. by repeat split.
Qed.

(** The severity of a parsed record contributes the record's priority. *)
Lemma classify_contributes line p :
  parse_logcat_line line = Ok (Some p) →
  contributes (classify_log_line p) (priority p).
Proof.
  intros (_ & Hprio & _)%parse_logcat_line_Some.
  unfold classify_log_line. destruct p as [? ? ? prio ? ? ? ?]. simpl in *.
  rewrite !elem_of_cons, elem_of_nil in Hprio.
  destruct Hprio as [->|[->|[->|[->|[->|[->|[]]]]]]];
    match goal with
    | |- contributes ?x _ => let v := eval vm_compute in x in change x with v
    end; constructor.
Qed.

End FilterFacts.

(** * Facts about the read loop *)

Module LoopFacts.

Import Py Re Spec Spec2 ParserFacts TextFacts ProcessFacts StepFacts.
Import SeverityFacts StripFacts LogMonitor Stream.

Lemma counted_store self sev p :
  counted (store_by_severity self sev p) = S (counted self).
Proof.
  unfold store_by_severity, counted.
  repeat case_bool_decide; simpl; try lia.
  destruct (length (info_messages self) <? 20); simpl; lia.
Qed.

(** One turn of the loop in follow mode: what is counted was printed, and
    what is printed was stored. *)
Lemma step_echo self line :
  ∃ s1 out, process_log_line self line = Ok s1 ∧
            echo s1 true line = Ok out ∧
            counted s1 ≤ counted self + length out ∧
            total_lines self + length out ≤ total_lines s1.
Proof.
  unfold echo.
  destruct (parse_logcat_line_total line) as [[p|] Hp]; rewrite Hp; simpl.
  - rewrite (process_parsed _ _ _ Hp).
    destruct (contains (classify_log_line p) (severity_filter self)) eqn:Hin;
      simpl.
    + destruct (contains (classify_log_line p) ["error"; "warning"]).
      * case_bool_decide.
        -- eexists _, _. split; [done|]. simpl. rewrite Hin.
           split; [done|]. simpl. unfold counted. simpl. lia.
        -- eexists _, _. split; [done|].
           pose proof (store_by_severity_lines
                         (set_seen_messages
                            ({[signature (message p) (tag p)]}
                             ∪ seen_messages self) (stored self line))
                         (classify_log_line p) p) as (_ & Ht & Hf).
           rewrite Hf. simpl. rewrite Hin. split; [done|].
           rewrite counted_store, Ht. unfold counted. simpl. lia.
      * eexists _, _. split; [done|].
        pose proof (store_by_severity_lines (stored self line)
                      (classify_log_line p) p) as (_ & Ht & Hf).
        rewrite Hf. simpl. rewrite Hin. split; [done|].
        rewrite counted_store, Ht. unfold counted. simpl. lia.
    + eexists _, _. split; [done|]. simpl. rewrite Hin.
      split; [done|]. unfold counted. simpl. lia.
  - destruct (process_log_line_lines self line) as (s1 & Hs1 & _ & Ht & _).
    destruct (has_text line) eqn:Htext.
    + rewrite process_unparsed in * by done. injection Hs1 as <-.
      eexists _, _. split; [done|]. split; [done|].
      unfold counted. simpl. lia.
    + rewrite process_blank in * by done. injection Hs1 as <-.
      eexists _, _. split; [done|]. split; [done|]. simpl. lia.
Qed.

Lemma echo_silent self line : echo self false line = Ok [].
Proof. reflexivity. Qed.


End LoopFacts.

(** * Facts about the lines that the read loop takes *)

Module ReadFacts.

Import Py Spec Spec2 LogMonitor Stream.


Lemma bind_Ok {A B} (a : A) (k : A → result B) : (Ok a ≫= k) = k a.
Proof. reflexivity. Qed.

Lemma process_lines_cons self line lines :
  process_lines self (line :: lines)
  = (self ← process_log_line self line; process_lines self lines).
Proof. reflexivity. Qed.

Lemma read_loop_cons self follow duration turn turns :
  read_loop self follow duration (turn :: turns)
  = if negb (truthy (text turn)) then Ok (self, [])
    else
      self ← process_log_line self (rstrip (text turn));
      printed ← echo self follow (rstrip (text turn));
      if duration_set duration && time_up turn then Ok (self, printed)
      else if interrupted turn then Ok (self, printed)
      else
        rest ← read_loop self follow duration turns;
        Ok (rest.1, printed ++ rest.2).
Proof. reflexivity. Qed.

End ReadFacts.

(** * Facts about [join] and [split] *)

Module JoinFacts.

Import Py Re Spec Spec2 LogMonitor Main.

Lemma join_cons sep x l :
  join sep (x :: l)
  = x +:+ match l with [] => "" | _ :: _ => sep +:+ join sep l end.
Proof. destruct l; simpl; [by rewrite str_app_nil_r|done]. Qed.

Lemma join_newline_cons x l : join newline (x :: l) = x +:+ join_tail l.
Proof. apply join_cons. Qed.

(** A tail is empty or starts with the line feed. *)
Lemma join_tail_cases l :
  join_tail l = "" ∨ ∃ t, join_tail l = String "010"%char t.
Proof. destruct l; [by left|right]. by eexists. Qed.

(** Two texts without line feed that are followed by tails are equal when
    the whole texts are, and so are the tails. *)
Lemma plain_prefix_inj x y t1 t2 :
  all_in dot x = true → all_in dot y = true →
  (t1 = "" ∨ ∃ t, t1 = String "010"%char t) →
  (t2 = "" ∨ ∃ t, t2 = String "010"%char t) →
  x +:+ t1 = y +:+ t2 → x = y ∧ t1 = t2.
Proof.
  revert y. induction x as [|c x IH]; intros y Hx Hy Ht1 Ht2 Heq.
  - rewrite str_app_nil_l in Heq. destruct y as [|d y].
    + by rewrite str_app_nil_l in Heq.
    + rewrite str_app_cons in Heq. simpl in Hy.
      apply andb_true_iff in Hy as [Hd _].
      destruct Ht1 as [->|[t ->]]; [done|]. injection Heq as <- _.
      done.
  - rewrite str_app_cons in Heq. simpl in Hx.
    apply andb_true_iff in Hx as [Hc Hx]. destruct y as [|d y].
    + rewrite str_app_nil_l in Heq.
      destruct Ht2 as [->|[t ->]]; [done|]. injection Heq as -> _. done.
    + rewrite str_app_cons in Heq. injection Heq as -> Heq.
      simpl in Hy. apply andb_true_iff in Hy as [_ Hy].
      destruct (IH y Hx Hy Ht1 Ht2 Heq) as [-> ->]. done.
Qed.

Lemma split_app_sep sep x s :
  all_in (λ c, negb (bool_decide (c = sep))) x = true →
  split sep (x +:+ String sep s) = x :: split sep s.
Proof.
  intros Hx. induction x as [|c x IH].
  - rewrite str_app_nil_l. simpl. by rewrite bool_decide_true.
  - simpl in Hx. apply andb_true_iff in Hx as [Hc Hx].
    rewrite str_app_cons. simpl. apply negb_true_iff in Hc. rewrite Hc.
    by rewrite (IH Hx).
Qed.

Lemma split_plain sep x :
  all_in (λ c, negb (bool_decide (c = sep))) x = true →
  split sep x = [x].
Proof.
  intros Hx. induction x as [|c x IH]; [done|].
  simpl in Hx. apply andb_true_iff in Hx as [Hc Hx].
  simpl. apply negb_true_iff in Hc. by rewrite Hc, (IH Hx).
Qed.

(** Splitting at the separator undoes joining with it, for a list that is
    not empty and whose items do not hold the separator. *)
Lemma split_join sep l :
  l ≠ [] →
  Forall (λ x, all_in (λ c, negb (bool_decide (c = sep))) x = true) l →
  split sep (join (String sep "") l) = l.
Proof.
  intros Hne Hall. induction Hall as [|x l Hx Hall IH]; [done|].
  rewrite join_cons. destruct l as [|y l].
  - rewrite str_app_nil_r. by apply split_plain.
  - rewrite str_app_cons, str_app_nil_l, split_app_sep by done.
    f_equal. by apply IH.
Qed.

End JoinFacts.

(** * Facts about white space in signatures *)

Module SqueezeFacts.

Import Py Re Spec Spec2 TextFacts DedupFacts LogMonitor.

(** [re.sub] of white space runs by one blank, read as a scan. *)
Lemma sub_go_squeeze s :
  sub_go (Plus space) " " (run_length space s) s = squeeze_from true s ∧
  sub_go (Plus space) " " 0 s = squeeze_from false s.
Proof.
  induction s as [|c s [IH1 IH2]]; [done|]. split.
  - cbn [run_length squeeze_from]. change (space c) with (isspace c).
    destruct (isspace c) eqn:Hc; cbn [sub_go]; [exact IH1|].
    rewrite re_match_plus. change (space c) with (isspace c).
    by rewrite Hc, IH2.
  - cbn [sub_go squeeze_from]. rewrite re_match_plus.
    change (space c) with (isspace c).
    destruct (isspace c); cbn [end_]; [by rewrite IH1|by rewrite IH2].
Qed.

Lemma sub_space_squeeze s : sub (Plus space) " " s = squeeze_from false s.
Proof. apply sub_go_squeeze. Qed.

Lemma space_not_digit c : isspace c = true → isdigit c = false.
Proof.
  unfold isspace, isdigit. intros H.
  destruct (48 <=? code c) eqn:H1, (code c <=? 57) eqn:H2; try done.
  apply Nat.leb_le in H1, H2. exfalso.
  repeat match type of H with
    | context [?a <=? ?b] =>
        first [ rewrite (proj2 (Nat.leb_le a b)) in H by lia
              | rewrite (proj2 (Nat.leb_gt a b)) in H by lia ]
    | context [?a =? ?b] => rewrite (proj2 (Nat.eqb_neq a b)) in H by lia
    end.
  done.
Qed.

Lemma space_variant_squeeze s1 s2 :
  space_variant s1 s2 → ∀ b, squeeze_from b s1 = squeeze_from b s2.
Proof.
  induction 1 as [|c s1 s2 _ IH|c d s1 s2 Hc Hd _ IH
                 |c d s1 s2 Hc Hd _ IH|c d s1 s2 Hc Hd _ IH]; intros b.
  - done.
  - simpl. destruct (isspace c), b; by rewrite ?IH.
  - simpl. rewrite Hc, Hd. destruct b; by rewrite IH.
  - rewrite <- IH. simpl. rewrite Hc, Hd. by destruct b.
  - rewrite IH. simpl. rewrite Hc, Hd. by destruct b.
Qed.

Lemma space_variant_remove s1 s2 :
  space_variant s1 s2 →
  space_variant (remove isdigit s1) (remove isdigit s2).
Proof.
  induction 1 as [|c s1 s2 _ IH|c d s1 s2 Hc Hd _ IH
                 |c d s1 s2 Hc Hd _ IH|c d s1 s2 Hc Hd _ IH].
  - constructor.
  - simpl. destruct (isdigit c); [done|by constructor].
  - simpl. rewrite (space_not_digit c Hc), (space_not_digit d Hd).
    by constructor.
  - simpl in *. rewrite (space_not_digit c Hc).
    rewrite (space_not_digit d Hd) in *. by constructor.
  - simpl in *. rewrite (space_not_digit c Hc).
    rewrite (space_not_digit d Hd) in *. by constructor.
Qed.

Lemma space_variant_app a b c d :
  space_variant a b → space_variant c d →
  space_variant (a +:+ c) (b +:+ d).
Proof.
  intros Hab Hcd.
  induction Hab as [|x s1 s2 _ IH|x y s1 s2 Hx Hy _ IH
                   |x y s1 s2 Hx Hy _ IH|x y s1 s2 Hx Hy _ IH];
    rewrite ?str_app_cons, ?str_app_nil_l in *; try done; by constructor.
Qed.

Lemma space_variant_refl s : space_variant s s.
Proof. induction s; by constructor. Qed.

End SqueezeFacts.

(** * Facts about [split] and the last item *)

Module SplitFacts.

Import Py Spec Spec2 Main JoinFacts.

Lemma split_nonempty sep s : split sep s ≠ [].
Proof.
  destruct s as [|c s]; simpl; [done|].
  case_bool_decide; [done|]. by destruct (split sep s).
Qed.

(** Splitting a text that holds the separator: the items in front of it,
    then the items behind it. *)
Lemma split_app sep a s :
  split sep (a +:+ String sep s) = split sep a ++ split sep s.
Proof.
  induction a as [|c a IH].
  - rewrite str_app_nil_l. simpl. by rewrite bool_decide_true.
  - rewrite str_app_cons. simpl. rewrite IH. case_bool_decide; [done|].
    pose proof (split_nonempty sep a). by destruct (split sep a).
Qed.

End SplitFacts.

(** * Further properties of the program *)

Section MoreProperties.

Import Py Re Spec Spec2 ReFacts ParserFacts TextFacts DedupFacts ProcessFacts.
Import StepFacts SessionFacts LogMonitor DeviceUtils Stream Main.
Import SeverityFacts.
Import IssueFacts.
Import StripFacts GroupFacts.
Import DurationFacts AcceptFacts ThresholdFacts.
Import FilterFacts.
Import LoopFacts.
Import ReadFacts.
Import JoinFacts.
Local Arguments Nat.min : simpl never.
Import SqueezeFacts.
Import SplitFacts Saving.

(** X1: in every session the error and warning counters are the lengths of
    the error and warning lists. *)
Theorem issue_counters_are_list_lengths
    (app_package device_serial : option string)
    (severity_filter : option (list string)) (lines : list string) :
  ∃ s, process_lines (init app_package device_serial severity_filter) lines
       = Ok s ∧
       error_count s = length (errors s) ∧
       warning_count s = length (warnings s).
Proof.
  destruct (process_lines_session
              (init app_package device_serial severity_filter) lines)
    as (s & Hs & _ & Hok).
  destruct (Hok (init_session_ok _ _ _)). by exists s.
Qed.


(** X3: errors and warnings share one set of signatures: in every session
    the number of signatures seen is the error counter plus the warning
    counter. *)
Theorem signatures_count_issues
    (app_package device_serial : option string)
    (severity_filter : option (list string)) (lines : list string) :
  ∃ s, process_lines (init app_package device_serial severity_filter) lines
       = Ok s ∧
       size (seen_messages s) = error_count s + warning_count s.
Proof.
  destruct (process_lines_session
              (init app_package device_serial severity_filter) lines)
    as (s & Hs & _ & Hok).
  destruct (Hok (init_session_ok _ _ _)). by exists s.
Qed.

(** X4: in every session the total line count is the number of stored
    lines, every stored line holds a character other than white space, and
    the five severity counters together never exceed the total. *)
Theorem counters_bounded_by_total
    (app_package device_serial : option string)
    (severity_filter : option (list string)) (lines : list string) :
  ∃ s, process_lines (init app_package device_serial severity_filter) lines
       = Ok s ∧
       total_lines s = length (log_lines s) ∧
       Forall (λ line, has_text line = true) (log_lines s) ∧
       counted s ≤ total_lines s.
Proof.
  destruct (process_lines_session
              (init app_package device_serial severity_filter) lines)
    as (s & Hs & _ & Hok).
  destruct (Hok (init_session_ok _ _ _)). by exists s.
Qed.

(** X5: processing never takes anything back, from any state: the stored
    lines and the three issue lists only grow at their end, no counter
    decreases, no signature is forgotten, and the application, the device
    and the severity filter stay as they are. *)
Theorem processing_only_adds (self : t) (lines : list string) :
  ∃ self', process_lines self lines = Ok self' ∧ grows self self'.
Proof.
  destruct (process_lines_session self lines) as (s & Hs & Hg & _).
  by exists s.
Qed.

(** X6: a parsed line whose severity is not in the filter is stored and
    counted in the total, and nothing else happens: no severity counter
    and no list moves, and its signature is not recorded. *)
Theorem excluded_severity_only_stored (self : t) (line : string) (p : parsed) :
  parse_logcat_line line = Ok (Some p) →
  classify_log_line p ∉ severity_filter self →
  ∃ self', process_log_line self line = Ok self' ∧
           one_more_line self line self' ∧ same_issues self self' ∧
           seen_messages self' = seen_messages self.
Proof.
  intros Hp Hout. rewrite (process_parsed _ _ _ Hp).
  rewrite contains_false by done. simpl.
  eexists. split; [done|]. by repeat split.
Qed.

(** Witness for X6: a verbose line under the default filter. *)
Lemma excluded_severity_only_stored_witness :
  let self := init None None None in
  let line := "01-01 00:00:00.000 1 1 V Tag: detail 7" in
  let p := {| timestamp := "01-01 00:00:00.000"; pid := "1"; tid := "1";
              priority := "V"; severity := "verbose"; tag := "Tag";
              message := "detail 7"; raw := line |} in
  parse_logcat_line line = Ok (Some p) ∧
  (classify_log_line p ∉ severity_filter self) ∧
  ∃ self', process_log_line self line = Ok self' ∧
           one_more_line self line self' ∧ same_issues self self' ∧
           seen_messages self' = seen_messages self.
Proof.
  intros self line p.
  assert (parse_logcat_line line = Ok (Some p)) as H1
    by (vm_compute; reflexivity).
  assert (classify_log_line p ∉ severity_filter self) as H2.
  { change (classify_log_line p) with "verbose".
    change (severity_filter self) with ["error"; "warning"; "info"; "debug"].
    rewrite !elem_of_cons, elem_of_nil. by intros [|[|[|[|]]]]. }
  split; [assumption|]. split; [assumption|].
  exact (excluded_severity_only_stored self line p H1 H2).
Defined.

(** X7: info, debug and verbose records are never deduplicated. Such a
    record that passes the filter always adds one to its own counter,
    whatever was seen before, and leaves the signatures, the errors and the
    warnings alone. *)
Theorem lesser_severities_always_counted
    (self : t) (line : string) (p : parsed) :
  parse_logcat_line line = Ok (Some p) →
  classify_log_line p ∈ ["info"; "debug"; "verbose"] →
  classify_log_line p ∈ severity_filter self →
  ∃ self', process_log_line self line = Ok self' ∧
    one_more_line self line self' ∧
    info_count self'
    = info_count self + (if bool_decide (classify_log_line p = "info")
                         then 1 else 0) ∧
    debug_count self'
    = debug_count self + (if bool_decide (classify_log_line p = "debug")
                          then 1 else 0) ∧
    verbose_count self'
    = verbose_count self + (if bool_decide (classify_log_line p = "verbose")
                            then 1 else 0) ∧
    seen_messages self' = seen_messages self ∧
    errors self' = errors self ∧ warnings self' = warnings self ∧
    error_count self' = error_count self ∧
    warning_count self' = warning_count self.
Proof.
  intros Hp Hsev Hin. rewrite (process_parsed _ _ _ Hp).
  rewrite (contains_true _ _ Hin). simpl.
  rewrite !elem_of_cons, elem_of_nil in Hsev.
  destruct Hsev as [Hc|[Hc|[Hc|[]]]]; rewrite Hc.
  - change (contains "info" ["error"; "warning"]) with false. cbv iota.
    rewrite store_info.
    destruct (length (info_messages (stored self line)) <? 20);
      eexists; (split; [done|]); repeat split; simpl; lia.
  - change (contains "debug" ["error"; "warning"]) with false. cbv iota.
    rewrite store_debug.
    eexists; (split; [done|]); repeat split; simpl; lia.
  - change (contains "verbose" ["error"; "warning"]) with false. cbv iota.
    rewrite store_verbose.
    eexists; (split; [done|]); repeat split; simpl; lia.
Qed.

(** Witness for X7: an info line in a session that has seen its signature
    as an error. *)
Lemma lesser_severities_always_counted_witness :
  let self := set_seen_messages {["TagB:ok"]} (init None None None) in
  let line := "01-01 00:00:00.200 1 1 I TagB: ok" in
  let p := {| timestamp := "01-01 00:00:00.200"; pid := "1"; tid := "1";
              priority := "I"; severity := "info"; tag := "TagB";
              message := "ok"; raw := line |} in
  parse_logcat_line line = Ok (Some p) ∧
  classify_log_line p ∈ ["info"; "debug"; "verbose"] ∧
  classify_log_line p ∈ severity_filter self ∧
  ∃ self', process_log_line self line = Ok self' ∧
           info_count self' = 1.
Proof.
  intros self line p.
  assert (parse_logcat_line line = Ok (Some p)) as H1
    by (vm_compute; reflexivity).
  assert (classify_log_line p ∈ ["info"; "debug"; "verbose"]) as H2
    by (change (classify_log_line p) with "info"; apply list_elem_of_here).
  assert (classify_log_line p ∈ severity_filter self) as H3
    by (change (classify_log_line p) with "info";
        change (severity_filter self)
          with ["error"; "warning"; "info"; "debug"];
        rewrite !elem_of_cons; auto).
  split; [assumption|]. split; [assumption|]. split; [assumption|].
  destruct (lesser_severities_always_counted self line p H1 H2 H3)
    as (s & Hs & _ & Hi & _).
  exists s. split; [exact Hs|]. exact Hi.
Defined.

(** X8: an error or warning record that passes the filter and whose
    signature is new is counted, appended to the list of its severity as
    "[tag] message", and its signature is recorded; the list and counter of
    the other severity and the info list stay as they are. *)
Theorem novel_issue_recorded (self : t) (line : string) (p : parsed) :
  parse_logcat_line line = Ok (Some p) →
  classify_log_line p ∈ ["error"; "warning"] →
  classify_log_line p ∈ severity_filter self →
  signature (message p) (tag p) ∉ seen_messages self →
  ∃ self', process_log_line self line = Ok self' ∧
    one_more_line self line self' ∧
    seen_messages self'
    = {[signature (message p) (tag p)]} ∪ seen_messages self ∧
    info_messages self' = info_messages self ∧
    (if bool_decide (classify_log_line p = "error")
     then errors self' = errors self ++ ["[" +:+ tag p +:+ "] " +:+ message p]
          ∧ error_count self' = error_count self + 1
          ∧ warnings self' = warnings self
          ∧ warning_count self' = warning_count self
     else warnings self'
          = warnings self ++ ["[" +:+ tag p +:+ "] " +:+ message p]
          ∧ warning_count self' = warning_count self + 1
          ∧ errors self' = errors self
          ∧ error_count self' = error_count self).
Proof.
  intros Hp Hsev Hin Hnew. rewrite (process_parsed _ _ _ Hp).
  rewrite (contains_true _ _ Hin), (contains_true _ _ Hsev). simpl.
  rewrite bool_decide_false by done.
  rewrite !elem_of_cons, elem_of_nil in Hsev.
  destruct Hsev as [Hc|[Hc|[]]]; rewrite Hc.
  - rewrite store_error. eexists. split; [done|]. by repeat split.
  - rewrite store_warning. eexists. split; [done|]. by repeat split.
Qed.

(** Witness for X8: the first error of a fresh session. *)
Lemma novel_issue_recorded_witness :
  let self := init None None None in
  let line := "01-01 00:00:00.000 1 1 E TagA: boom 1" in
  let p := {| timestamp := "01-01 00:00:00.000"; pid := "1"; tid := "1";
              priority := "E"; severity := "error"; tag := "TagA";
              message := "boom 1"; raw := line |} in
  parse_logcat_line line = Ok (Some p) ∧
  classify_log_line p ∈ ["error"; "warning"] ∧
  classify_log_line p ∈ severity_filter self ∧
  (signature (message p) (tag p) ∉ seen_messages self) ∧
  ∃ self', process_log_line self line = Ok self' ∧
           errors self' = ["[TagA] boom 1"] ∧ error_count self' = 1.
Proof.
  intros self line p.
  assert (parse_logcat_line line = Ok (Some p)) as H1
    by (vm_compute; reflexivity).
  assert (classify_log_line p ∈ ["error"; "warning"]) as H2
    by (change (classify_log_line p) with "error"; apply list_elem_of_here).
  assert (classify_log_line p ∈ severity_filter self) as H3
    by (change (classify_log_line p) with "error"; apply list_elem_of_here).
  assert (signature (message p) (tag p) ∉ seen_messages self) as H4
    by apply not_elem_of_empty.
  do 4 (split; [assumption|]).
  destruct (novel_issue_recorded self line p H1 H2 H3 H4)
    as (s & Hs & _ & _ & _ & He & Hc & _).
  exists s. split; [exact Hs|]. split; [exact He|exact Hc].
Defined.

(** X9: errors and warnings are deduplicated against each other. When two
    error or warning records pass the filter one after the other and their
    tags and their messages differ only in embedded digits, the second adds
    nothing to any list or counter, even if its severity is not that of
    the first. *)
Theorem look_alike_issue_dropped
    (self : t) (line1 line2 : string) (p1 p2 : parsed) :
  parse_logcat_line line1 = Ok (Some p1) →
  parse_logcat_line line2 = Ok (Some p2) →
  classify_log_line p1 ∈ ["error"; "warning"] →
  classify_log_line p2 ∈ ["error"; "warning"] →
  classify_log_line p1 ∈ severity_filter self →
  classify_log_line p2 ∈ severity_filter self →
  digit_variant (tag p1) (tag p2) →
  digit_variant (message p1) (message p2) →
  ∃ s1 s2, process_log_line self line1 = Ok s1 ∧
           process_log_line s1 line2 = Ok s2 ∧
           one_more_line s1 line2 s2 ∧ same_issues s1 s2 ∧
           seen_messages s2 = seen_messages s1.
Proof.
  intros Hp1 Hp2 Hsev1 Hsev2 Hin1 Hin2 Htag Hmsg.
  destruct (issue_signature_recorded self line1 p1 Hp1 Hsev1 Hin1)
    as (s1 & Hs1 & Hsig & Hfilter).
  exists s1. rewrite (process_parsed _ _ _ Hp2), Hfilter.
  rewrite (contains_true _ _ Hin2), (contains_true _ _ Hsev2). simpl.
  rewrite bool_decide_true
    by (by rewrite <- (signature_digit_variant _ _ _ _ Htag Hmsg)).
  eexists. split; [done|]. split; [done|]. by repeat split.
Qed.

(** Witness for X9: an error, then a warning that looks like it. *)
Lemma look_alike_issue_dropped_witness :
  let self := init None None None in
  let line1 := "01-01 00:00:00.000 1 1 E Net7: retry 1" in
  let line2 := "01-01 00:00:09.000 1 1 W Net8: retry 2" in
  let p1 := {| timestamp := "01-01 00:00:00.000"; pid := "1"; tid := "1";
               priority := "E"; severity := "error"; tag := "Net7";
               message := "retry 1"; raw := line1 |} in
  let p2 := {| timestamp := "01-01 00:00:09.000"; pid := "1"; tid := "1";
               priority := "W"; severity := "warning"; tag := "Net8";
               message := "retry 2"; raw := line2 |} in
  parse_logcat_line line1 = Ok (Some p1) ∧
  parse_logcat_line line2 = Ok (Some p2) ∧
  classify_log_line p1 ∈ ["error"; "warning"] ∧
  classify_log_line p2 ∈ ["error"; "warning"] ∧
  classify_log_line p1 ∈ severity_filter self ∧
  classify_log_line p2 ∈ severity_filter self ∧
  digit_variant (tag p1) (tag p2) ∧
  digit_variant (message p1) (message p2) ∧
  ∃ s1 s2, process_log_line self line1 = Ok s1 ∧
           process_log_line s1 line2 = Ok s2 ∧
           one_more_line s1 line2 s2 ∧ same_issues s1 s2 ∧
           seen_messages s2 = seen_messages s1.
Proof.
  intros self line1 line2 p1 p2.
  assert (parse_logcat_line line1 = Ok (Some p1)) as H1
    by (vm_compute; reflexivity).
  assert (parse_logcat_line line2 = Ok (Some p2)) as H2
    by (vm_compute; reflexivity).
  assert (classify_log_line p1 ∈ ["error"; "warning"]) as H3
    by (change (classify_log_line p1) with "error"; apply list_elem_of_here).
  assert (classify_log_line p2 ∈ ["error"; "warning"]) as H4
    by (change (classify_log_line p2) with "warning";
        rewrite !elem_of_cons; auto).
  assert (classify_log_line p1 ∈ severity_filter self) as H5
    by (change (classify_log_line p1) with "error"; apply list_elem_of_here).
  assert (classify_log_line p2 ∈ severity_filter self) as H6
    by (change (classify_log_line p2) with "warning";
        change (severity_filter self)
          with ["error"; "warning"; "info"; "debug"];
        rewrite !elem_of_cons; auto).
  assert (digit_variant (tag p1) (tag p2)) as H7.
  { simpl. do 3 apply dv_same. apply dv_left; [reflexivity|].
    apply dv_right; [reflexivity|]. apply dv_nil. }
  assert (digit_variant (message p1) (message p2)) as H8.
  { simpl. do 6 apply dv_same. apply dv_left; [reflexivity|].
    apply dv_right; [reflexivity|]. apply dv_nil. }
  do 8 (split; [assumption|]).
  exact (look_alike_issue_dropped self line1 line2 p1 p2
           H1 H2 H3 H4 H5 H6 H7 H8).
Defined.

(** X10: the fields of every parsed record. The process and thread
    identifiers are non-empty runs of digits, the tag holds no colon, the
    message holds no line feed, and tag and message carry no white space
    at either end. *)
Theorem parsed_record_fields (line : string) (p : parsed) :
  parse_logcat_line line = Ok (Some p) →
  (pid p ≠ "" ∧ all_in isdigit (pid p) = true) ∧
  (tid p ≠ "" ∧ all_in isdigit (tid p) = true) ∧
  all_in (λ c, negb (bool_decide (c = ":"%char))) (tag p) = true ∧
  all_in (λ c, negb (bool_decide (c = "010"%char))) (message p) = true ∧
  strip (tag p) = tag p ∧ strip (message p) = message p.
Proof.
  intros (Hpid & Htid & Htag & Hmsg & Hst & Hsm)%parsed_fields.
  split; [done|]. split; [done|]. split; [|by split].
  clear -Htag. induction (tag p) as [|c s IH]; [done|]. simpl in *.
  apply andb_true_iff in Htag as [Hc Hs]. rewrite (IH Hs), andb_true_r.
  unfold none_of, one_of in Hc. simpl in Hc.
  apply negb_true_iff, bool_decide_eq_false_1 in Hc.
  apply negb_true_iff, bool_decide_eq_false_2. intros ->. apply Hc.
  apply list_elem_of_here.
Qed.

(** Witness for X10: the line of the docstring of [parse_logcat_line]. *)
Lemma parsed_record_fields_witness :
  let line :=
    "12-11 18:30:45.123  1234  5678 E ActivityManager: Error message" in
  let p := {| timestamp := "12-11 18:30:45.123"; pid := "1234";
              tid := "5678"; priority := "E"; severity := "error";
              tag := "ActivityManager"; message := "Error message";
              raw := line |} in
  parse_logcat_line line = Ok (Some p) ∧
  (pid p ≠ "" ∧ all_in isdigit (pid p) = true) ∧
  (tid p ≠ "" ∧ all_in isdigit (tid p) = true) ∧
  all_in (λ c, negb (bool_decide (c = ":"%char))) (tag p) = true ∧
  all_in (λ c, negb (bool_decide (c = "010"%char))) (message p) = true ∧
  strip (tag p) = tag p ∧ strip (message p) = message p.
Proof.
  intros line p.
  assert (parse_logcat_line line = Ok (Some p)) as H
    by (vm_compute; reflexivity).
  split; [assumption|]. exact (parsed_record_fields line p H).
Defined.



(** X12: building the logcat command never fails, whatever the monitor and
    whatever "pidof" gave. The command is "adb", the device after "-s"
    exactly when a non-empty serial is set, then "logcat -v time", then one
    "--pid=" argument exactly when an application is set and "pidof"
    printed something other than white space, then at most one threshold
    "*:p" with p one of V, D, I, W, E, F. *)
Theorem logcat_command_shape (self : t) (pidof : option string) :
  ∃ target pid_arg threshold,
    logcat_command self pidof
    = Ok (["adb"] ++ target ++ ["logcat"; "-v"; "time"] ++ pid_arg
          ++ threshold) ∧
    target = match device_serial self with
             | Some serial => if truthy serial then ["-s"; serial] else []
             | None => []
             end ∧
    pid_arg = match app_package self, pidof with
              | Some app, Some stdout =>
                  if truthy app && has_text stdout
                  then ["--pid=" +:+ strip stdout] else []
              | _, _ => []
              end ∧
    (threshold = [] ∨
     ∃ q, q ∈ priority_order ∧ threshold = ["*:" +:+ q]).
Proof.
  unfold logcat_command, build_adb_command.
  assert (∃ threshold, severity_args self = Ok threshold ∧
            (threshold = [] ∨
             ∃ q, q ∈ priority_order ∧ threshold = ["*:" +:+ q]))
    as (threshold & -> & Hth).
  { destruct (severity_args_cases self) as [[_ ->]|(q & -> & Hq & _)].
    - exists []. by split; [|left].
    - eexists. split; [done|]. right. by exists q. }
  exists (match device_serial self with
          | Some serial => if truthy serial then ["-s"; serial] else []
          | None => []
          end),
         (match app_package self, pidof with
          | Some app, Some stdout =>
              if truthy app && has_text stdout
              then ["--pid=" +:+ strip stdout] else []
          | _, _ => []
          end), threshold.
  split; [|by repeat split].
  simpl. f_equal.
  destruct (device_serial self) as [serial|]; [destruct (truthy serial)|];
    destruct (app_package self) as [app|]; try destruct (truthy app);
    destruct pidof as [stdout|];
    rewrite <- ?truthy_strip; try destruct (truthy (strip stdout));
    reflexivity.
Qed.

(** X13: the threshold given to logcat never hides a line that the
    monitor would count. For every parsed record whose severity is in the
    filter, the command ends with a threshold "*:q" where q is not above
    the record's priority in the order V < D < I < W < E < F. *)
Theorem threshold_admits_filtered
    (self : t) (pidof : option string) (line : string) (p : parsed) :
  parse_logcat_line line = Ok (Some p) →
  classify_log_line p ∈ severity_filter self →
  ∃ cmd q, logcat_command self pidof = Ok (cmd ++ ["*:" +:+ q]) ∧
           q ∈ priority_order ∧ rank q ≤ rank (priority p).
Proof.
  intros Hp Hin.
  assert (priority p ∈ priority_letters (severity_filter self)) as Hletter.
  { apply priority_letters_spec. exists (classify_log_line p).
    split; [done|]. by eapply classify_contributes. }
  destruct (severity_args_cases self) as [[Hnil _]|(q & Hq & Hord & _ & Hle)].
  { rewrite Hnil in Hletter. by apply elem_of_nil in Hletter. }
  unfold logcat_command. rewrite Hq. simpl.
  eexists _, q. split; [reflexivity|]. split; [done|]. by apply Hle.
Qed.

(** Witness for X13: a warning line under the filter of errors and
    warnings. *)
Lemma threshold_admits_filtered_witness :
  let self := init None (Some "emulator-5554") (Some ["error"; "warning"]) in
  let line := "01-01 00:00:09.000 1 1 W Net8: retry 2" in
  let p := {| timestamp := "01-01 00:00:09.000"; pid := "1"; tid := "1";
              priority := "W"; severity := "warning"; tag := "Net8";
              message := "retry 2"; raw := line |} in
  parse_logcat_line line = Ok (Some p) ∧
  classify_log_line p ∈ severity_filter self ∧
  ∃ cmd q, logcat_command self None = Ok (cmd ++ ["*:" +:+ q]) ∧
           q ∈ priority_order ∧ rank q ≤ rank (priority p).
Proof.
  intros self line p.
  assert (parse_logcat_line line = Ok (Some p)) as H1
    by (vm_compute; reflexivity).
  assert (classify_log_line p ∈ severity_filter self) as H2
    by (change (classify_log_line p) with "warning";
        change (severity_filter self) with ["error"; "warning"];
        rewrite !elem_of_cons; auto).
  split; [assumption|]. split; [assumption|].
  exact (threshold_admits_filtered self None line p H1 H2).
Defined.

(** X14: a filter without any of the names error, warning, info, debug and
    verbose (the name "fatal" or a misspelt name, say) counts nothing. No
    threshold is given to logcat, and whatever lines arrive, they are
    stored, but no severity counter, no list and no signature changes. *)
Theorem unknown_filter_counts_nothing (self : t) (lines : list string) :
  Forall (λ sev, sev ∉ vocabulary) (severity_filter self) →
  severity_args self = Ok [] ∧
  ∃ self', process_lines self lines = Ok self' ∧
           same_issues self self' ∧
           seen_messages self' = seen_messages self ∧
           log_lines self' = log_lines self ++ List.filter has_text lines.
Proof.
  intros Hunknown. split.
  - destruct (severity_args_cases self) as [[_ ?]|(q & _ & _ & Hq & _)];
      [done|].
    apply priority_letters_spec in Hq as (sev & Hsev & Hc).
    eapply Forall_forall in Hunknown; [|done].
    exfalso. apply Hunknown. unfold vocabulary.
    destruct Hc; rewrite !elem_of_cons; auto 10.
  - revert self Hunknown.
    induction lines as [|line lines IH]; intros self Hunknown; simpl.
    { exists self. rewrite app_nil_r. by repeat split. }
    assert (process_log_line self line
            = Ok (if has_text line then stored self line else self)) as ->.
    { destruct (has_text line) eqn:Htext; [|by apply process_blank].
      destruct (parse_logcat_line_total line) as [[p|] Hp];
        [|by apply process_unparsed].
      rewrite (process_parsed _ _ _ Hp), contains_false; [done|].
      intros Hin. eapply Forall_forall in Hunknown; [|done].
      apply Hunknown. pose proof (classify_tier _ _ Hp) as Ht.
      unfold tiers, vocabulary in *. rewrite !elem_of_cons in *. tauto. }
    simpl. destruct (has_text line); simpl.
    + destruct (IH (stored self line) Hunknown)
        as (s & -> & Hsame & Hseen & Hl).
      exists s. split; [done|]. split; [exact Hsame|]. split; [done|].
      rewrite Hl. simpl. by rewrite <- app_assoc.
    + destruct (IH self Hunknown) as (s & -> & Hsame & Hseen & Hl).
      by exists s.
Qed.

(** Witness for X14: the filter "fatal" and one fatal line. *)
Lemma unknown_filter_counts_nothing_witness :
  let self := init None None (Some ["fatal"]) in
  let lines := ["01-01 00:00:00.000 1 1 F Tag: died"] in
  Forall (λ sev, sev ∉ vocabulary) (severity_filter self) ∧
  severity_args self = Ok [] ∧
  ∃ self', process_lines self lines = Ok self' ∧
           same_issues self self' ∧
           seen_messages self' = seen_messages self ∧
           log_lines self' = log_lines self ++ List.filter has_text lines.
Proof.
  intros self lines.
  assert (Forall (λ sev, sev ∉ vocabulary) (severity_filter self)) as H.
  { apply Forall_cons_2; [|apply Forall_nil_2].
    unfold vocabulary. rewrite !elem_of_cons, elem_of_nil.
    by intros [|[|[|[|[|]]]]]. }
  split; [assumption|].
  exact (unknown_filter_counts_nothing self lines H).
Defined.


(** X16: in follow mode the loop prints every line that it counts. From
    any monitor, the five severity counters together rise by no more than
    the number of lines printed, and the total line count rises by no less.
    Out of follow mode nothing is printed. *)
Theorem follow_prints_what_is_counted
    (self : t) (duration : option Z) (turns : list turn) :
  (∃ self' printed,
     read_loop self true duration turns = Ok (self', printed) ∧
     counted self' ≤ counted self + length printed ∧
     total_lines self + length printed ≤ total_lines self') ∧
  (∃ self', read_loop self false duration turns = Ok (self', [])).
Proof.
  split.
  - revert self. induction turns as [|turn turns IH]; intros self.
    { exists self, []. simpl. split; [done|]. lia. }
    rewrite read_loop_cons.
    destruct (truthy (text turn)); cbn [negb].
    2:{ exists self, []. simpl. split; [done|]. lia. }
    destruct (step_echo self (rstrip (text turn)))
      as (s1 & out & Hs1 & Hout & Hc & Ht).
    rewrite Hs1, bind_Ok, Hout, bind_Ok.
    destruct (duration_set duration && time_up turn); [by exists s1, out|].
    destruct (interrupted turn); [by exists s1, out|].
    destruct (IH s1) as (s2 & rest & -> & Hc2 & Ht2).
    rewrite bind_Ok. simpl.
    eexists _, _. split; [done|]. rewrite length_app. lia.
  - revert self. induction turns as [|turn turns IH]; intros self.
    { by exists self. }
    rewrite read_loop_cons.
    destruct (truthy (text turn)); cbn [negb]; [|by exists self].
    destruct (process_log_line_lines self (rstrip (text turn)))
      as (s1 & -> & _).
    rewrite bind_Ok, echo_silent, bind_Ok.
    destruct (duration_set duration && time_up turn); [by exists s1|].
    destruct (interrupted turn); [by exists s1|].
    destruct (IH s1) as (s2 & ->). rewrite bind_Ok. simpl. by exists s2.
Qed.



(** X18: the saved log file determines the stored lines. When the stored
    lines of two monitors are not empty and hold no line feed, as the read
    loop leaves them, equal log files mean equal lists of lines. *)
Theorem saved_log_determines_lines (s1 s2 : t) :
  Forall plain_line (log_lines s1) →
  Forall plain_line (log_lines s2) →
  log_file (save_logs s1) = log_file (save_logs s2) →
  log_lines s1 = log_lines s2.
Proof.
  unfold save_logs. simpl.
  generalize (log_lines s1) (log_lines s2). clear s1 s2.
  intros l1 l2 H1. revert l2.
  induction H1 as [|x l1 [Hx Hdx] H1 IH]; intros l2 H2 Heq.
  - destruct H2 as [|y l2 [Hy _] _]; [done|].
    rewrite join_newline_cons in Heq. simpl in Heq.
    destruct y; [done|]. by rewrite str_app_cons in Heq.
  - destruct H2 as [|y l2 [Hy Hdy] H2].
    { rewrite join_newline_cons in Heq. simpl in Heq.
      destruct x; [done|]. by rewrite str_app_cons in Heq. }
    rewrite !join_newline_cons in Heq.
    destruct (plain_prefix_inj x y _ _ Hdx Hdy
                (join_tail_cases l1) (join_tail_cases l2) Heq) as [-> Ht].
    f_equal. destruct l1 as [|z l1], l2 as [|w l2]; try done.
    unfold join_tail in Ht. apply IH; [done|].
    by apply (inj (String.app newline)) in Ht.
Qed.

(** Witness for X18: two monitors that stored the same two lines. *)
Lemma saved_log_determines_lines_witness :
  let s1 := set_log_lines ["a b"; "c"] (init None None None) in
  let s2 := set_log_lines ["a b"; "c"] (init (Some "com.app") None None) in
  Forall plain_line (log_lines s1) ∧
  Forall plain_line (log_lines s2) ∧
  log_file (save_logs s1) = log_file (save_logs s2) ∧
  log_lines s1 = log_lines s2.
Proof.
  intros s1 s2.
  assert (Forall plain_line ["a b"; "c"]) as H
    by (repeat apply Forall_cons_2; [..|apply Forall_nil_2];
        by split).
  assert (log_file (save_logs s1) = log_file (save_logs s2)) as H3
    by reflexivity.
  split; [exact H|]. split; [exact H|]. split; [exact H3|].
  exact (saved_log_determines_lines s1 s2 H H H3).
Defined.

(** X19: the severity option of the command line. For a list of items
    that is not empty, whose items hold no comma and whose joined text is
    not empty, the option made of the items joined by commas gives the
    items back, in order, each with surrounding white space removed and in
    lower case. Names out of error, warning, info, debug and verbose come
    back as they are and become the filter of the monitor. *)
Theorem severity_option_round_trip (items : list string) :
  items ≠ [] →
  Forall (λ x, all_in (λ c, negb (bool_decide (c = ","%char))) x = true)
    items →
  truthy (join "," items) = true →
  severity_filter_of (Some (join "," items))
  = Some ((λ s, lower (strip s)) <$> items) ∧
  (Forall (λ x, x ∈ vocabulary) items →
   ∀ app_package device_serial,
     severity_filter (monitor_of app_package device_serial
                        (Some (join "," items))) = items).
Proof.
  intros Hne Hplain Htruthy.
  assert (severity_filter_of (Some (join "," items))
          = Some ((λ s, lower (strip s)) <$> items)) as Hopt.
  { unfold severity_filter_of. rewrite Htruthy.
    by rewrite (split_join ","%char items Hne Hplain). }
  split; [done|]. intros Hvoc a d. unfold monitor_of. rewrite Hopt.
  assert ((λ s, lower (strip s)) <$> items = items) as ->.
  { clear -Hvoc. induction Hvoc as [|x l Hx _ IH]; [done|].
    rewrite fmap_cons, IH. f_equal. unfold vocabulary in Hx.
    rewrite !elem_of_cons, elem_of_nil in Hx.
    by destruct Hx as [->|[->|[->|[->|[->|[]]]]]]. }
  by destruct items.
Qed.

(** Witness for X19: the option "error,warning". *)
Lemma severity_option_round_trip_witness :
  ["error"; "warning"] ≠ [] ∧
  Forall (λ x, all_in (λ c, negb (bool_decide (c = ","%char))) x = true)
    ["error"; "warning"] ∧
  truthy (join "," ["error"; "warning"]) = true ∧
  Forall (λ x, x ∈ vocabulary) ["error"; "warning"] ∧
  severity_filter_of (Some "error,warning") = Some ["error"; "warning"] ∧
  severity_filter (monitor_of None None (Some "error,warning"))
  = ["error"; "warning"].
Proof.
  assert (["error"; "warning"] ≠ ([] : list string)) as H1 by discriminate.
  assert (Forall (λ x, all_in (λ c, negb (bool_decide (c = ","%char))) x
                       = true) ["error"; "warning"]) as H2
    by (repeat apply Forall_cons_2; [..|apply Forall_nil_2]; reflexivity).
  assert (truthy (join "," ["error"; "warning"]) = true) as H3
    by reflexivity.
  assert (Forall (λ x, x ∈ vocabulary) ["error"; "warning"]) as H4
    by (repeat apply Forall_cons_2; [..|apply Forall_nil_2];
        unfold vocabulary; rewrite !elem_of_cons; auto).
  do 4 (split; [assumption|]).
  destruct (severity_option_round_trip ["error"; "warning"] H1 H2 H3)
    as [Ha Hb].
  split; [exact Ha|]. exact (Hb H4 None None).
Defined.

(** X20: the lists of the JSON output follow from its statistics. In every
    session the exported errors and warnings are the first entries of the
    full lists, as many as the smaller of 20 and the exported count, and
    the sample lines are as many as the smaller of 50 and the exported
    total. *)
Theorem json_lists_match_statistics
    (app_package device_serial : option string)
    (severity_filter : option (list string)) (lines : list string) :
  ∃ s, process_lines (init app_package device_serial severity_filter) lines
       = Ok s ∧
    let json := get_json_output s in
    json_errors json `prefix_of` errors s ∧
    json_warnings json `prefix_of` warnings s ∧
    length (json_errors json)
    = Nat.min 20 (stat_errors (json_statistics json)) ∧
    length (json_warnings json)
    = Nat.min 20 (stat_warnings (json_statistics json)) ∧
    length (sample_logs json)
    = Nat.min 50 (stat_total_lines (json_statistics json)).
Proof.
  destruct (process_lines_session
              (init app_package device_serial severity_filter) lines)
    as (s & Hs & _ & Hok).
  destruct (Hok (init_session_ok _ _ _)) as [He Hw _ Ht _ _ _].
  exists s. split; [done|]. cbv zeta. unfold get_json_output.
  cbn [json_errors json_warnings sample_logs json_statistics
       stat_errors stat_warnings stat_total_lines].
  unfold first_n, last_n.
  rewrite He, Hw, Ht, !length_take, length_drop.
  repeat split; try apply prefix_take; lia.
Qed.

(** X21: blank lines are invisible and batches compose. Processing a list
    of lines gives what processing it without its blank lines gives, and
    processing two lists one after the other gives what processing their
    concatenation gives. *)
Theorem blank_lines_invisible (self : t) (lines more : list string) :
  process_lines self lines = process_lines self (List.filter has_text lines)
  ∧ process_lines self (lines ++ more)
    = (self' ← process_lines self lines; process_lines self' more).
Proof.
  split.
  - revert self. induction lines as [|line lines IH]; intros self; [done|].
    simpl. destruct (has_text line) eqn:Htext.
    + simpl. destruct (process_log_line self line); simpl; [apply IH|done].
    + rewrite process_blank by done. simpl. apply IH.
  - revert self. induction lines as [|line lines IH]; intros self; [done|].
    simpl. destruct (process_log_line self line); simpl; [apply IH|done].
Qed.

(** X22: the signature does not depend on how white space is written.
    Tags and messages that differ only in their white space runs, in the
    length of a run or in the white space characters in it, give the same
    signature, so the second of two such errors or warnings is a
    duplicate. *)
Theorem signature_ignores_spacing (t1 t2 m1 m2 : string) :
  space_variant t1 t2 → space_variant m1 m2 →
  signature m1 t1 = signature m2 t2 ∧
  ∀ self, (deduplicate_message
             (deduplicate_message self m1 t1).2 m2 t2).1 = false.
Proof.
  intros Ht Hm.
  assert (signature m1 t1 = signature m2 t2) as Hsig.
  { rewrite !signature_remove, !sub_space_squeeze. f_equal.
    apply space_variant_squeeze, space_variant_remove.
    apply space_variant_app; [done|].
    apply space_variant_app; [apply space_variant_refl|done]. }
  split; [done|]. intros self. rewrite dedup_seen; [done|].
  rewrite <- Hsig. apply dedup_records.
Qed.

(** Witness for X22: a blank against a tab and two blanks. *)
Lemma signature_ignores_spacing_witness :
  space_variant "Net" "Net" ∧
  space_variant "time out" (String "t" (String "i" (String "m" (String "e"
                   (String "009" (String " " (String " " "out"))))))) ∧
  signature "time out" "Net"
  = signature (String "t" (String "i" (String "m" (String "e"
                 (String "009" (String " " (String " " "out"))))))) "Net".
Proof.
  assert (space_variant "Net" "Net") as H1 by apply space_variant_refl.
  assert (space_variant "time out"
            (String "t" (String "i" (String "m" (String "e"
               (String "009" (String " " (String " " "out")))))))) as H2.
  { do 4 apply sv_same. apply sv_right; [reflexivity..|].
    apply sv_right; [reflexivity..|]. apply space_variant_refl. }
  split; [exact H1|]. split; [exact H2|].
  exact (proj1 (signature_ignores_spacing _ _ _ _ H1 H2)).
Defined.

(** X23: the names of the saved files use the package only through what
    stands behind its last dot. For a package "front.name", where name
    holds no dot, the log is "name-timestamp.log" and the summary is
    "name-timestamp-summary.json", whatever front is; two packages with
    the same last component, saved in the same second, get the same file
    names. *)
Theorem saved_names_use_last_component
    (self : t) (front name timestamp : string) :
  all_in (λ c, negb (bool_decide (c = "."%char))) name = true →
  app_package self = Some (front +:+ "." +:+ name) →
  log_name self timestamp = name +:+ "-" +:+ timestamp +:+ ".log" ∧
  summary_name self timestamp
  = name +:+ "-" +:+ timestamp +:+ "-summary.json".
Proof.
  intros Hname Hpkg.
  assert (app_name self = name) as Happ.
  { unfold app_name. rewrite Hpkg.
    assert (truthy (front +:+ "." +:+ name) = true) as ->
      by (destruct front; [done|by rewrite str_app_cons]).
    change ("." +:+ name) with (String "."%char name).
    rewrite split_app, (split_plain _ name Hname).
    by rewrite last_snoc. }
  unfold log_name, summary_name. by rewrite Happ.
Qed.

(** Witness for X23: the package "com.example.app". *)
Lemma saved_names_use_last_component_witness :
  let self := init (Some "com.example.app") None None in
  all_in (λ c, negb (bool_decide (c = "."%char))) "app" = true ∧
  app_package self = Some ("com.example" +:+ "." +:+ "app") ∧
  log_name self "20240101-120000" = "app-20240101-120000.log" ∧
  summary_name self "20240101-120000" = "app-20240101-120000-summary.json".
Proof.
  intros self.
  assert (all_in (λ c, negb (bool_decide (c = "."%char))) "app" = true)
    as H1 by reflexivity.
  assert (app_package self = Some ("com.example" +:+ "." +:+ "app")) as H2
    by reflexivity.
  split; [exact H1|]. split; [exact H2|].
  exact (saved_names_use_last_component self "com.example" "app"
           "20240101-120000" H1 H2).
Defined.

End MoreProperties.
